(** * bri-b-dev.github.io: the homepage feature grid, the site configuration
      and the blog front matter

    A shallow embedding of
    - [src/components/HomepageFeatures/index.tsx]: the [FeatureList] constant,
      the [Feature] card renderer and the [HomepageFeatures] composer;
    - [docusaurus.config.ts]: the site configuration object;
    - the front-matter blocks of the Markdown blog posts;
    - the Kotlin listings of the posts on streaming uploads
      ([TikaInputStream], [PeekableInputStream], [UploadService],
      [UploadController]) and on field filtering ([FieldFilterAdvice]).

    React elements are modelled as a tree type, JavaScript arrays as lists
    read by index, the module-level array as a one-cell heap that the
    composer receives and returns, and the system clock as an explicit
    argument of the configuration.  Java streams are the lists of their
    unread bytes with the fields of the wrapping class as a state record,
    and the blob container is a finite map from blob names to contents. *)

From Stdlib Require Import ZArith String Ascii Strings.Byte List DecimalString DecimalZ.
From stdpp Require Import base list strings gmap.

Local Open Scope string_scope.
Set Warnings "-register-all".

(* ===================================================================== *)
(** ** React elements *)
(* ===================================================================== *)

(** [require('@site/static/img/... .svg').default]: an SVG file loaded as a
    React component, identified by the path of the asset. *)
Inductive SvgComponent : Type :=
| SvgAsset (path : string).

Definition require_default (path : string) : SvgComponent := SvgAsset path.

#[global] Instance SvgComponent_eq_dec : EqDecision SvgComponent.
Proof. solve_decision. Defined.

(** The element tree built by the JSX of the component file.  Each
    constructor is one kind of JSX element that occurs there:
    text, the fragment [<>...</>], an intrinsic element ([div], [section],
    [p]) with its optional [className], an [<Svg className role />] element,
    [<Heading as=...>], and [<Feature key=... {...props} />], which carries
    its React key and the props object it was given. *)
Inductive ReactNode : Type :=
| Text (s : string)
| Fragment (children : list ReactNode)
| Intrinsic (tag : string) (className : option string)
            (children : list ReactNode)
| SvgElement (component : SvgComponent) (className : string) (role : string)
| HeadingElement (as_ : string) (children : list ReactNode)
| FeatureElement (key : nat) (props : FeatureItem)
with FeatureItem : Type :=
| Build_FeatureItem (title : string) (Svg : SvgComponent)
                    (description : ReactNode).

Definition title (props : FeatureItem) : string :=
  match props with Build_FeatureItem t _ _ => t end.
Definition Svg (props : FeatureItem) : SvgComponent :=
  match props with Build_FeatureItem _ s _ => s end.
Definition description (props : FeatureItem) : ReactNode :=
  match props with Build_FeatureItem _ _ d => d end.

(** The React key of an element: only [<Feature key={idx} />] has one. *)
Definition element_key (n : ReactNode) : option nat :=
  match n with
  | FeatureElement k _ => Some k
  | _ => None
  end.

(** The props of a [<Feature />] element. *)
Definition element_props (n : ReactNode) : option FeatureItem :=
  match n with
  | FeatureElement _ props => Some props
  | _ => None
  end.

(* ===================================================================== *)
(** ** JavaScript helpers used by the component *)
(* ===================================================================== *)

(** [clsx] applied to string arguments: the truthy (non-empty) ones joined
    with a single space. *)
Fixpoint clsx (args : list string) : string :=
  match args with
  | [] => EmptyString
  | a :: rest =>
      if String.eqb a EmptyString then clsx rest
      else let r := clsx rest in
           if String.eqb r EmptyString then a else a +:+ " " +:+ r
  end.

(** [Array.prototype.map] as ECMAScript runs it: the length is read once,
    then the indices [k = 0 .. len-1] are visited in increasing order; the
    element at [k] is read from the array and the callback is called with
    the element and [k]; the results are collected in index order.  The
    receiver is only read. *)
Section ArrayMap.
Context {A B : Type}.
Variable callback : A -> nat -> B.
Variable O : list A.

Fixpoint map_from (k remaining : nat) : list B :=
  match remaining with
  | 0 => []
  | S remaining' =>
      match O !! k with
      | Some kValue => callback kValue k :: map_from (S k) remaining'
      | None => map_from (S k) remaining'
      end
  end.

Definition Array_map : list B := map_from 0 (length O).
End ArrayMap.

(* ===================================================================== *)
(** ** The component file *)
(* ===================================================================== *)

(** [import styles from './styles.module.css']: the class names that the
    CSS-modules build generates for the stylesheet.  The component reads
    two of them; their values are parameters. *)
Record Styles : Type := {
  features : string;
  featureSvg : string;
}.

(** Class names as a CSS-modules build could generate them, for running the
    component on a concrete input. *)
Definition styles_sample : Styles :=
  {| features := "features_t9Lx"; featureSvg := "featureSvg_GfXr" |}.

(** [const FeatureList: FeatureItem[]].  JSX text is trimmed of the line
    breaks and indentation around it. *)
Definition FeatureList : list FeatureItem := [
  Build_FeatureItem
    "Was ich mache"
    (require_default "@site/static/img/undraw_docusaurus_mountain.svg")
    (Fragment [Text "Backend, Cloud, Data Platforms"]);
  Build_FeatureItem
    "Woran ich glaube"
    (require_default "@site/static/img/undraw_docusaurus_mountain.svg")
    (Fragment [Text "Open Source first, Sicherheit, Skalierbarkeit, Teamarbeit"]);
  Build_FeatureItem
    "Was ich suche"
    (require_default "@site/static/img/undraw_docusaurus_mountain.svg")
    (Fragment [Text "offen für neue Backend-/Cloud-Rollen"])
].

(** The array object bound to [FeatureList] lives on the heap: [const]
    fixes the binding, not the contents.  A render pass receives the heap
    and returns it. *)
Record Heap : Type := { FeatureList_array : list FeatureItem }.

Definition initial_heap : Heap := {| FeatureList_array := FeatureList |}.

(** How a call completes. *)
Inductive Completion (A : Type) : Type :=
| Normal (value : A)
| Throw (error : string).
Arguments Normal {A} value.
Arguments Throw {A} error.

Section Component.
Variable styles : Styles.

(** [function Feature({title, Svg, description}: FeatureItem)]. *)
Definition Feature (props : FeatureItem) : ReactNode :=
  match props with
  | Build_FeatureItem title Svg description =>
      Intrinsic "div" (Some (clsx ["col col--4"])) [
        Intrinsic "div" (Some "text--center") [
          SvgElement Svg (featureSvg styles) "img"
        ];
        Intrinsic "div" (Some "text--center padding-horiz--md") [
          HeadingElement "h3" [Text title];
          Intrinsic "p" None [description]
        ]
      ]
  end.

(** [export default function HomepageFeatures(): ReactNode]. *)
Definition HomepageFeatures (h : Heap) : Completion ReactNode * Heap :=
  (Normal
     (Intrinsic "section" (Some (features styles)) [
        Intrinsic "div" (Some "container") [
          Intrinsic "div" (Some "row")
            (Array_map (fun props idx => FeatureElement idx props)
                       (FeatureList_array h))
        ]
      ]),
   h).

(** React renders a [<Feature />] element by calling [Feature] on its
    props. *)
Definition render_element (n : ReactNode) : ReactNode :=
  match n with
  | FeatureElement _ props => Feature props
  | _ => n
  end.
End Component.

(** The children of the [div.row] inside [section > div.container]. *)
Definition row_children (tree : ReactNode) : list ReactNode :=
  match tree with
  | Intrinsic "section" _
      [Intrinsic "div" (Some "container")
         [Intrinsic "div" (Some "row") children]] => children
  | _ => []
  end.

(** The [<Feature />] elements among a list of nodes. *)
Definition is_feature_element (n : ReactNode) : bool :=
  match n with
  | FeatureElement _ _ => true
  | _ => false
  end.

(** The row of cards a render pass produces from a heap: the children of
    the row, or nothing if the call throws. *)
Definition cards (styles : Styles) (h : Heap) : list ReactNode :=
  match fst (HomepageFeatures styles h) with
  | Normal tree => row_children tree
  | Throw _ => []
  end.

(* ===================================================================== *)
(** ** What a rendered card shows *)
(* ===================================================================== *)

(** The text content of a tree, in document order. *)
Fixpoint inner_text (n : ReactNode) : string :=
  match n with
  | Text s => s
  | Fragment children => String.concat EmptyString (List.map inner_text children)
  | Intrinsic _ _ children => String.concat EmptyString (List.map inner_text children)
  | SvgElement _ _ _ => EmptyString
  | HeadingElement _ children => String.concat EmptyString (List.map inner_text children)
  | FeatureElement _ _ => EmptyString
  end.

(** The visible blocks of a tree from top to bottom: icons, headings with
    their level and text, paragraphs with their text. *)
Inductive Block : Type :=
| IconBlock (component : SvgComponent)
| HeadingBlock (as_ : string) (text : string)
| ParagraphBlock (text : string).

Fixpoint outline (n : ReactNode) : list Block :=
  match n with
  | Text _ => []
  | Fragment children => List.flat_map outline children
  | Intrinsic tag _ children =>
      if String.eqb tag "p"
      then [ParagraphBlock (String.concat EmptyString (List.map inner_text children))]
      else List.flat_map outline children
  | SvgElement component _ _ => [IconBlock component]
  | HeadingElement as_ children =>
      [HeadingBlock as_ (String.concat EmptyString (List.map inner_text children))]
  | FeatureElement _ _ => []
  end.

(** The heading and the paragraph of a card, as nodes. *)
Definition card_heading (card : ReactNode) : option (list ReactNode) :=
  match card with
  | Intrinsic _ _ [_; Intrinsic _ _ [HeadingElement _ children; _]] =>
      Some children
  | _ => None
  end.

Definition card_paragraph (card : ReactNode) : option (list ReactNode) :=
  match card with
  | Intrinsic _ _ [_; Intrinsic _ _ [_; Intrinsic "p" _ children]] =>
      Some children
  | _ => None
  end.

(** Class names. *)
Definition root_class (n : ReactNode) : option string :=
  match n with
  | Intrinsic _ className _ => className
  | _ => None
  end.

Definition root_children (n : ReactNode) : list ReactNode :=
  match n with
  | Intrinsic _ _ children => children
  | _ => []
  end.

(** A [className] is a list of class tokens separated by white space. *)
Definition class_tokens (className : string) : list string :=
  String.words className.

Definition has_class (c : string) (n : ReactNode) : bool :=
  match root_class n with
  | Some className => bool_decide (c ∈ class_tokens className)
  | None => false
  end.

(** [strip_prefix p s]: the rest of [s] after the prefix [p]. *)
Fixpoint strip_prefix (p s : string) : option string :=
  match p, s with
  | EmptyString, _ => Some s
  | String a p', String b s' =>
      if Ascii.eqb a b then strip_prefix p' s' else None
  | String _ _, EmptyString => None
  end.

(** The external stylesheet framework lays a row out on a grid of twelve
    columns; the class [col--N] gives an element [N] of them. *)
Definition grid_columns : nat := 12.

Definition token_span (tok : string) : option nat :=
  match strip_prefix "col--" tok with
  | Some digits =>
      match NilEmpty.uint_of_string digits with
      | Some u => if String.eqb digits EmptyString then None else Some (Nat.of_uint u)
      | None => None
      end
  | None => None
  end.

Definition col_span (className : string) : option nat :=
  match omap token_span (class_tokens className) with
  | n :: _ => Some n
  | [] => None
  end.

(* ===================================================================== *)
(** ** The site configuration: [docusaurus.config.ts] *)
(* ===================================================================== *)

(** The double-quote character, for string values that contain it. *)
Definition dq : string := String (Ascii.ascii_of_nat 34) EmptyString.

Module SiteConfig.

(** The framework's [ReportingSeverity]:
    ['ignore' | 'log' | 'warn' | 'throw']. *)
Inductive ReportingSeverity : Type :=
| sev_ignore | sev_log | sev_warn | sev_throw.

(** [prismThemes] of [prism-react-renderer], by name. *)
Inductive PrismTheme : Type :=
| prismThemes_github | prismThemes_dracula.

Record Future := { v4 : bool }.

Record I18n := {
  defaultLocale : string;
  locales : list string;
}.

Record FeedOptions := {
  feed_type : list string;
  xslt : bool;
}.

Record BlogOptions := {
  showReadingTime : bool;
  feedOptions : FeedOptions;
  editUrl : string;
  onInlineTags : ReportingSeverity;
  onInlineAuthors : ReportingSeverity;
  onUntruncatedBlogPosts : ReportingSeverity;
}.

Record ThemeOptions := { customCss : string }.

(** [docs: false] switches the docs plugin off; no docs options are
    given. *)
Record PresetOptions := {
  docs : bool;
  blog : BlogOptions;
  theme : ThemeOptions;
}.

Record ColorMode := {
  defaultMode : string;
  disableSwitch : bool;
  respectPrefersColorScheme : bool;
}.

Record Logo := { alt : string; src : string }.

(** A navbar or footer link: [to] for internal routes, [href] for
    external targets; [position] only in the navbar. *)
Record LinkItem := {
  label : string;
  to : option string;
  href : option string;
  position : option string;
}.

Record Navbar := {
  navbar_title : string;
  logo : Logo;
  navbar_items : list LinkItem;
}.

Record FooterColumn := {
  column_title : string;
  column_items : list LinkItem;
}.

Record Footer := {
  style : string;
  links : list FooterColumn;
  copyright : string;
}.

Record Prism := {
  prism_theme : PrismTheme;
  darkTheme : PrismTheme;
  additionalLanguages : list string;
}.

Record AnnouncementBar := {
  id : string;
  content : string;
  isCloseable : bool;
}.

Record ThemeConfig := {
  image : string;
  colorMode : ColorMode;
  navbar : Navbar;
  footer : Footer;
  prism : Prism;
  announcementBar : AnnouncementBar;
}.

Record Config := {
  title : string;
  tagline : string;
  favicon : string;
  future : Future;
  url : string;
  baseUrl : string;
  organizationName : string;
  projectName : string;
  trailingSlash : bool;
  onBrokenLinks : ReportingSeverity;
  onBrokenMarkdownLinks : ReportingSeverity;
  i18n : I18n;
  presets : list (string * PresetOptions);
  themeConfig : ThemeConfig;
}.

(** A JavaScript integer Number converted to a string, as a template
    literal does: decimal digits, with a leading minus sign below zero
    (the form of every integer below 10^21 in magnitude, so of every year
    [getFullYear] returns). *)
Definition Number_toString (n : Z) : string :=
  NilEmpty.string_of_int (Z.to_int n).

(** [const config: Config].  The module is evaluated when the site is
    built; [new Date().getFullYear()] reads the system clock, whose
    current year is the argument [fullYear]. *)
Definition config (fullYear : Z) : Config := {|
  title := "Brigitte Böhm's homepage";
  tagline := "Cloud & Data Platform Engineer";
  favicon := "img/favicon.svg";
  future := {| v4 := true |};
  url := "https://bri-b-dev.github.io";
  baseUrl := "/";
  organizationName := "bri-b-dev";
  projectName := "bri-b-dev.github.io";
  trailingSlash := false;
  onBrokenLinks := sev_throw;
  onBrokenMarkdownLinks := sev_warn;
  i18n := {|
    defaultLocale := "en";
    locales := ["en"];
  |};
  presets := [
    ("classic",
     {| docs := false;
        blog := {|
          showReadingTime := true;
          feedOptions := {|
            feed_type := ["rss"; "atom"];
            xslt := true;
          |};
          editUrl :=
            "https://github.com/bri-b-dev/bri-b-dev.github.io/tree/main/packages/create-docusaurus/templates/shared/";
          onInlineTags := sev_warn;
          onInlineAuthors := sev_warn;
          onUntruncatedBlogPosts := sev_warn;
        |};
        theme := {| customCss := "./src/css/custom.css" |};
     |})
  ];
  themeConfig := {|
    image := "img/docusaurus-social-card.jpg";
    colorMode := {|
      defaultMode := "dark";
      disableSwitch := false;
      respectPrefersColorScheme := true;
    |};
    navbar := {|
      navbar_title := "Home";
      logo := {| alt := "My Site Logo"; src := "img/logo.svg" |};
      navbar_items := [
        {| to := Some "/about"; href := None; label := "About";
           position := Some "left" |};
        {| to := Some "/blog"; href := None; label := "Blog";
           position := Some "left" |};
        {| to := None; href := Some "mailto:brigitte_boehm@outlook.de";
           label := "Kontakt"; position := Some "right" |};
        {| to := None; href := Some "https://github.com/bri-b-dev";
           label := "GitHub"; position := Some "right" |}
      ];
    |};
    footer := {|
      style := "dark";
      links := [
        {| column_title := "Navigation";
           column_items := [
             {| label := "About"; to := Some "/about"; href := None;
                position := None |};
             {| label := "Blog"; to := Some "/blog"; href := None;
                position := None |}
           ] |};
        {| column_title := "Kontakt";
           column_items := [
             {| label := "E‑Mail"; to := None;
                href := Some "mailto:brigitte_boehm@outlook.de";
                position := None |};
             {| label := "LinkedIn"; to := None;
                href := Some "https://www.linkedin.com/in/brigitte-boehm-34b7a025/";
                position := None |};
             {| label := "GitHub"; to := None;
                href := Some "https://github.com/bri-b-dev";
                position := None |}
           ] |}
      ];
      copyright := "© " +:+ Number_toString fullYear +:+ " Brigitte Böhm";
    |};
    prism := {|
      prism_theme := prismThemes_github;
      darkTheme := prismThemes_dracula;
      additionalLanguages := ["java"; "kotlin"; "bash"; "json"; "yaml"];
    |};
    announcementBar := {|
      id := "job-hint";
      content :=
        "🚀 Offen für spannende Rollen in Backend & Cloud – <a href="
        +:+ dq +:+ "mailto:brigitte.boehm@outlook.de" +:+ dq
        +:+ ">Kontakt</a>";
      isCloseable := true;
    |};
  |};
|}.

(** The options of the blog plugin: those of the ['classic'] preset. *)
Definition blog_options (c : Config) : option BlogOptions :=
  match presets c with
  | (_, options) :: _ => Some (blog options)
  | [] => None
  end.

(** *** The build framework's reporting *)

(** Modelled from the spec: the external build framework, which is not
    code of this repository, reports each problem it finds with the
    severity the configuration gives for that kind of problem: ['throw']
    ends the build with an error, ['warn'] records a warning and goes on,
    ['log'] and ['ignore'] go on. *)
Inductive BuildResult : Type :=
| BuildOk (warnings : list string)
| BuildFailed (error : string).

Definition report (severity : ReportingSeverity) (r : BuildResult)
    (problem : string) : BuildResult :=
  match r with
  | BuildFailed e => BuildFailed e
  | BuildOk ws =>
      match severity with
      | sev_throw => BuildFailed problem
      | sev_warn => BuildOk (ws ++ [problem])
      | sev_log | sev_ignore => BuildOk ws
      end
  end.

(** Modelled from the spec: what the framework checks on the built site.
    [routes] are the paths of the generated pages, [internal_links] the
    targets of the links between pages, [unresolved_markdown_links] the
    Markdown file links that do not resolve, [inline_authors] the posts
    that declare an author inline instead of by key. *)
Record Site := {
  routes : list string;
  internal_links : list string;
  unresolved_markdown_links : list string;
  inline_authors : list string;
}.

(** An internal link is broken when its target is not a route. *)
Definition broken_links (s : Site) : list string :=
  List.filter (fun target => bool_decide (target ∉ routes s))
              (internal_links s).

Definition severity_of_inline_authors (c : Config) : ReportingSeverity :=
  match blog_options c with
  | Some b => onInlineAuthors b
  | None => sev_warn
  end.

Definition build (c : Config) (s : Site) : BuildResult :=
  let r1 := foldl (report (severity_of_inline_authors c)) (BuildOk [])
                  (inline_authors s) in
  let r2 := foldl (report (onBrokenMarkdownLinks c)) r1
                  (unresolved_markdown_links s) in
  foldl (report (onBrokenLinks c)) r2 (broken_links s).

(** A site with one page that links to a page that does not exist. *)
Definition site_with_broken_link : Site := {|
  routes := ["/"; "/about"; "/blog"];
  internal_links := ["/about"; "/contact"];
  unresolved_markdown_links := ["./missing.md"];
  inline_authors := [];
|}.

(** The same site without its links between pages. *)
Definition without_links (s : Site) : Site := {|
  routes := routes s;
  internal_links := [];
  unresolved_markdown_links := unresolved_markdown_links s;
  inline_authors := inline_authors s;
|}.

End SiteConfig.

(* ===================================================================== *)
(** ** The blog posts: front matter *)
(* ===================================================================== *)

Module Blog.

(** The two content sets of the blog: the files under [blog/], written
    in German, and their English versions under
    [i18n/en/docusaurus-plugin-content-blog/]. *)
Inductive ContentSet : Type :=
| DefaultContent
| EnglishContent.

#[global] Instance ContentSet_eq_dec : EqDecision ContentSet.
Proof. solve_decision. Defined.

(** A Markdown document: the file it is in, its position in that file
    (some files hold several documents, one after the other), its content
    set, and its first lines up to the line that closes the front matter.
    The body of the post is left out.  For the files [unnamed/part_000] to
    [unnamed/part_003] no path is recorded; their documents belong to the
    content set of the language they are written in. *)
Record Document : Type := {
  source : string;
  part : nat;
  content_set : ContentSet;
  head : list string;
}.

(** The lines between the opening [---] and the next [---]. *)
Fixpoint until_fence (lines : list string) : option (list string) :=
  match lines with
  | [] => None
  | l :: rest =>
      if String.eqb l "---" then Some []
      else match until_fence rest with
           | Some block => Some (l :: block)
           | None => None
           end
  end.

Definition front_matter_lines (lines : list string)
    : option (list string) :=
  match lines with
  | l :: rest => if String.eqb l "---" then until_fence rest else None
  | [] => None
  end.

(** A line [key: value] split at its first colon followed by a space;
    a line without one (a blank line) gives nothing. *)
Fixpoint split_entry (key : string) (s : string)
    : option (string * string) :=
  match s with
  | EmptyString => None
  | String c rest =>
      if Ascii.eqb c ":"%char
      then match rest with
           | String c' value =>
               if Ascii.eqb c' " "%char then Some (key, value)
               else split_entry (key +:+ String c EmptyString) rest
           | EmptyString => None
           end
      else split_entry (key +:+ String c EmptyString) rest
  end.

Definition parse_entry (line : string) : option (string * string) :=
  split_entry EmptyString line.

(** The front matter of a document as the list of its entries, in the
    order of the file. *)
Definition front_matter (d : Document) : option (list (string * string)) :=
  match front_matter_lines (head d) with
  | Some block => Some (omap parse_entry block)
  | None => None
  end.

Fixpoint assoc (key : string) (entries : list (string * string))
    : option string :=
  match entries with
  | [] => None
  | (k, v) :: rest => if String.eqb k key then Some v else assoc key rest
  end.

Definition field (key : string) (d : Document) : option string :=
  match front_matter d with
  | Some entries => assoc key entries
  | None => None
  end.

Definition slug (d : Document) : option string := field "slug" d.

(** [blog/2025-01-20-springboot-fileupload-azure.md], lines 1-8 of the document. *)
Definition blog_springboot_fileupload_azure : Document := {|
  source := "blog/2025-01-20-springboot-fileupload-azure.md";
  part := 1;
  content_set := DefaultContent;
  head := [
    "---";
    "slug: springboot-fileupload-azure";
    "title: " +:+ dq +:+ "Streaming File Uploads nach Azure Blob Storage mit Spring Boot" +:+ dq;
    "authors: brigitte";
    "tags: [spring-boot, kotlin, java, azure, blob-storage, fileupload]";
    "date: 2025-01-20";
    "description: " +:+ dq +:+ "Speicherschonende Verarbeitung großer Uploads direkt in Azure Storage – ohne Zwischenspeicherung im RAM." +:+ dq;
    "---"
  ]
|}.

(** [blog/2025-01-27-aks-node-selection.md], lines 1-8 of the document. *)
Definition blog_aks_node_selection : Document := {|
  source := "blog/2025-01-27-aks-node-selection.md";
  part := 1;
  content_set := DefaultContent;
  head := [
    "---";
    "slug: aks-node-selection";
    "title: " +:+ dq +:+ "AKS Node Selection: Physische Pools vs. Virtual Nodes" +:+ dq;
    "authors: brigitte";
    "tags: [kubernetes, aks, azure, nodepool, virtual-node, scheduling]";
    "date: 2025-01-27";
    "description: " +:+ dq +:+ "Strategien, um Workloads in AKS bevorzugt auf physischen User-Nodes laufen zu lassen – mit automatischem Fallback auf Virtual Nodes." +:+ dq;
    "---"
  ]
|}.

(** [blog/2025-02-17-field-filtering.md], lines 1-8 of the document. *)
Definition blog_field_filtering : Document := {|
  source := "blog/2025-02-17-field-filtering.md";
  part := 1;
  content_set := DefaultContent;
  head := [
    "---";
    "slug: field-filtering-rest-jackson";
    "title: " +:+ dq +:+ "Field-Filtering in REST-APIs mit Jackson & @ControllerAdvice" +:+ dq;
    "authors: brigitte";
    "tags: [spring-boot, kotlin, java, rest, jackson, json]";
    "date: 2025-02-17";
    "description: " +:+ dq +:+ "Dynamische Reduktion von Response-Feldern über Query-Parameter – elegante Lösung mit Mixins und MappingJacksonValue." +:+ dq;
    "---"
  ]
|}.

(** [i18n/en/docusaurus-plugin-content-blog/2025-01-20-springboot-fileupload-azure.md],
    document 1 of 2 in the file, lines 1-8 of the document. *)
Definition i18n_en_springboot_fileupload_azure : Document := {|
  source := "i18n/en/docusaurus-plugin-content-blog/2025-01-20-springboot-fileupload-azure.md";
  part := 1;
  content_set := EnglishContent;
  head := [
    "---";
    "slug: springboot-fileupload-azure";
    "title: " +:+ dq +:+ "Streaming File Uploads to Azure Blob Storage with Spring Boot" +:+ dq;
    "authors: brigitte";
    "tags: [spring-boot, kotlin, java, azure, blob-storage, fileupload]";
    "date: 2025-01-20";
    "description: " +:+ dq +:+ "Memory-efficient processing of large uploads directly in Azure Storage—without temporary storage in RAM." +:+ dq;
    "---"
  ]
|}.

(** [i18n/en/docusaurus-plugin-content-blog/2025-01-20-springboot-fileupload-azure.md],
    document 2 of 2 in the file, lines 1-9 of the document. *)
Definition i18n_en_file_doc2 : Document := {|
  source := "i18n/en/docusaurus-plugin-content-blog/2025-01-20-springboot-fileupload-azure.md";
  part := 2;
  content_set := EnglishContent;
  head := [
    "---";
    EmptyString;
    "slug: terraform-patterns-aks-azure";
    "title: “Terraform Patterns for AKS & Azure" +:+ dq;
    "authors: brigitte";
    "tags: [terraform, aks, azure, rbac, network-policy, modules, cicd]";
    "date: 2025-02-03";
    "description: “Experiences with modular Terraform setups for AKS – from module design and RBAC to network policies and CI/CD." +:+ dq;
    "---"
  ]
|}.

(** [unnamed/part_000], lines 1-8 of the document. *)
Definition part_000 : Document := {|
  source := "unnamed/part_000";
  part := 1;
  content_set := EnglishContent;
  head := [
    "---";
    "slug: workload-identity-lessons-learned";
    "title: " +:+ dq +:+ "Workload Identity in AKS – Lessons Learned" +:+ dq;
    "authors: brigitte";
    "tags: [kubernetes, azure, aks, security, identity, lessons-learned]";
    "date: 2024-11-10";
    "description: " +:+ dq +:+ "Setup, pitfalls, and best practices from real projects" +:+ dq;
    "---"
  ]
|}.

(** [unnamed/part_001], document 1 of 2 in the file, lines 1-8 of the
    document. *)
Definition part_001_doc1 : Document := {|
  source := "unnamed/part_001";
  part := 1;
  content_set := EnglishContent;
  head := [
    "---";
    "slug: field-filtering-rest-jackson";
    "title: " +:+ dq +:+ "Field-Filtering in REST-APIs with Jackson & @ControllerAdvice" +:+ dq;
    "authors: brigitte";
    "tags: [spring-boot, kotlin, java, rest, jackson, json]";
    "date: 2025-02-17";
    "description: " +:+ dq +:+ "Dynamic reduction of response fields via query parameters – an elegant solution with mixins and MappingJacksonValue." +:+ dq;
    "---"
  ]
|}.

(** [unnamed/part_001], document 2 of 2 in the file, lines 1-8 of the
    document. *)
Definition part_001_doc2 : Document := {|
  source := "unnamed/part_001";
  part := 2;
  content_set := EnglishContent;
  head := [
    "---";
    "slug: aks-node-selection";
    "title: " +:+ dq +:+ "AKS Node Selection: Physical Pools vs. Virtual Nodes" +:+ dq;
    "authors: brigitte";
    "tags: [kubernetes, aks, azure, nodepool, virtual-node, scheduling]";
    "date: 2025-01-27";
    "description: " +:+ dq +:+ "Strategies for running workloads in AKS preferentially on physical user nodes – with automatic fallback to virtual nodes." +:+ dq;
    "---"
  ]
|}.

(** [unnamed/part_002], lines 1-8 of the document. *)
Definition part_002 : Document := {|
  source := "unnamed/part_002";
  part := 1;
  content_set := DefaultContent;
  head := [
    "---";
    "slug: workload-identity-lessons-learned";
    "title: " +:+ dq +:+ "Workload Identity in AKS – Lessons Learned" +:+ dq;
    "authors: brigitte";
    "tags: [kubernetes, azure, aks, security, identity, lessons-learned]";
    "date: 2024-11-10";
    "description: " +:+ dq +:+ "Setup, Stolpersteine und Best Practices aus Projekten" +:+ dq;
    "---"
  ]
|}.

(** [unnamed/part_003], lines 1-9 of the document. *)
Definition part_003 : Document := {|
  source := "unnamed/part_003";
  part := 1;
  content_set := DefaultContent;
  head := [
    "---";
    EmptyString;
    "slug: terraform-patterns-aks-azure";
    "title: " +:+ dq +:+ "Terraform Patterns für AKS & Azure" +:+ dq;
    "authors: brigitte";
    "tags: [terraform, aks, azure, rbac, network-policy, modules, cicd]";
    "date: 2025-02-03";
    "description: " +:+ dq +:+ "Erfahrungen mit modularen Terraform-Setups für AKS – von Modul-Design über RBAC bis zu Network Policies und CI/CD." +:+ dq;
    "---"
  ]
|}.

Definition documents : list Document := [
  blog_springboot_fileupload_azure;
  blog_aks_node_selection;
  blog_field_filtering;
  i18n_en_springboot_fileupload_azure;
  i18n_en_file_doc2;
  part_000;
  part_001_doc1;
  part_001_doc2;
  part_002;
  part_003
].

(** The documents of one content set. *)
Definition in_content_set (cs : ContentSet) : list Document :=
  List.filter (fun d => bool_decide (content_set d = cs)) documents.

(** Two documents are versions of the same post when the entries that a
    translation leaves as they are ([date], [tags], [authors]) agree. *)
Definition same_post (d e : Document) : bool :=
  bool_decide (field "date" d = field "date" e)
  && bool_decide (field "tags" d = field "tags" e)
  && bool_decide (field "authors" d = field "authors" e).

(** A localized post pair: a German and an English version of the same
    post. *)
Definition localized_pair (de en : Document) : bool :=
  bool_decide (content_set de = DefaultContent)
  && bool_decide (content_set en = EnglishContent)
  && same_post de en.

(** The versions of a post in a content set. *)
Definition versions (cs : ContentSet) (d : Document) : list Document :=
  List.filter (same_post d) (in_content_set cs).

(** Every post of the sources has exactly one German and exactly one
    English version. *)
Definition bilingual : Prop :=
  Forall (λ d, length (versions DefaultContent d) = 1
               ∧ length (versions EnglishContent d) = 1) documents.

End Blog.

(* ===================================================================== *)
(** ** The page as a whole *)
(* ===================================================================== *)









(* ===================================================================== *)
(** ** Switching between the languages *)
(* ===================================================================== *)

#[global] Instance Document_eq_dec : EqDecision Blog.Document.
Proof. solve_decision. Defined.

(** The locale a content set is written for. *)
Definition content_set_of_locale (locale : string)
    : option Blog.ContentSet :=
  if String.eqb locale "en" then Some Blog.EnglishContent
  else if String.eqb locale "de" then Some Blog.DefaultContent
  else None.

(** The document of a content set that carries the slug of [d]. *)
Definition find_by_slug (cs : Blog.ContentSet) (d : Blog.Document)
    : option Blog.Document :=
  List.find (λ e, bool_decide (Blog.slug e = Blog.slug d))
            (Blog.in_content_set cs).

(** Modelled from the spec: switching the locale, which the external
    framework does and which is not code of this repository.  From the page
    of a post the switch to a locale that the site is configured for leads
    to the post with the same slug in the content of that locale; to a
    locale the site is not configured for there is no switch. *)
Definition switch_locale (configured : list string) (target : string)
    (d : Blog.Document) : option Blog.Document :=
  if bool_decide (target ∈ configured)
  then match content_set_of_locale target with
       | Some cs => find_by_slug cs d
       | None => None
       end
  else None.

(* ===================================================================== *)
(** ** Views of the configuration and of the documents *)
(* ===================================================================== *)

(** A configuration with the copyright line of its footer replaced. *)
Definition with_copyright (text : string) (c : SiteConfig.Config)
    : SiteConfig.Config :=
  let t := SiteConfig.themeConfig c in
  let f := SiteConfig.footer t in
  {| SiteConfig.title := SiteConfig.title c;
     SiteConfig.tagline := SiteConfig.tagline c;
     SiteConfig.favicon := SiteConfig.favicon c;
     SiteConfig.future := SiteConfig.future c;
     SiteConfig.url := SiteConfig.url c;
     SiteConfig.baseUrl := SiteConfig.baseUrl c;
     SiteConfig.organizationName := SiteConfig.organizationName c;
     SiteConfig.projectName := SiteConfig.projectName c;
     SiteConfig.trailingSlash := SiteConfig.trailingSlash c;
     SiteConfig.onBrokenLinks := SiteConfig.onBrokenLinks c;
     SiteConfig.onBrokenMarkdownLinks := SiteConfig.onBrokenMarkdownLinks c;
     SiteConfig.i18n := SiteConfig.i18n c;
     SiteConfig.presets := SiteConfig.presets c;
     SiteConfig.themeConfig :=
       {| SiteConfig.image := SiteConfig.image t;
          SiteConfig.colorMode := SiteConfig.colorMode t;
          SiteConfig.navbar := SiteConfig.navbar t;
          SiteConfig.footer :=
            {| SiteConfig.style := SiteConfig.style f;
               SiteConfig.links := SiteConfig.links f;
               SiteConfig.copyright := text |};
          SiteConfig.prism := SiteConfig.prism t;
          SiteConfig.announcementBar := SiteConfig.announcementBar t |} |}.

(** The keys of the front matter of a document, in the order of the
    file. *)
Definition front_matter_keys (d : Blog.Document) : option (list string) :=
  match Blog.front_matter d with
  | Some entries => Some (List.map fst entries)
  | None => None
  end.

(** A document followed by further lines, as the file continues after the
    front matter. *)
Definition with_body (d : Blog.Document) (body : list string)
    : Blog.Document :=
  {| Blog.source := Blog.source d;
     Blog.part := Blog.part d;
     Blog.content_set := Blog.content_set d;
     Blog.head := (Blog.head d ++ body)%list |}.

(* ===================================================================== *)
(** ** Code listed in the posts: the upload service *)
(* ===================================================================== *)

(** The Kotlin listings of the post on streaming uploads
    ([blog/2025-01-20-springboot-fileupload-azure.md] and its English
    version).  A [java.io.InputStream] over given content is the list of
    the bytes not yet read; [read()] returns the next byte as an [Int], or
    [-1] at the end. *)
Definition int_of_read (r : option byte) : Z :=
  match r with
  | Some b => Z.of_N (Byte.to_N b)
  | None => (-1)%Z
  end.

Module TikaInputStream.

(** [class TikaInputStream(private val source: InputStream)] with its
    private fields [buffer], [replay] and [probed]; [replay = None] is
    [null]. *)
Record State : Type := {
  source : list byte;
  buffer : list byte;
  replay : option (list byte);
  probed : bool;
}.

(** The constructor. *)
Definition new (source : list byte) : State :=
  {| source := source; buffer := []; replay := None; probed := false |}.

(** [override fun read(): Int]. *)
Definition read (st : State) : Z * State :=
  match replay st with
  | Some replayStream =>
      (int_of_read (head replayStream),
       {| source := source st; buffer := buffer st;
          replay := Some (tail replayStream); probed := probed st |})
  | None =>
      let b := head (source st) in
      (int_of_read b,
       {| source := tail (source st);
          buffer := match b with
                    | Some x => if negb (probed st)
                                then (buffer st ++ [x])%list
                                else buffer st
                    | None => buffer st
                    end;
          replay := None; probed := probed st |})
  end.

(** [fun detectMimeType(): String]; [tika] is [Tika().detect]. *)
Definition detectMimeType (tika : list byte → string) (st : State)
    : string * State :=
  if negb (probed st)
  then (tika (buffer st),
        {| source := source st; buffer := buffer st;
           replay := Some (buffer st); probed := true |})
  else ("application/octet-stream", st).

(** [n] calls of [read], with their results in order. *)
Fixpoint reads (n : nat) (st : State) : list Z * State :=
  match n with
  | 0 => ([], st)
  | S n' =>
      let (b, st1) := read st in
      let (bs, st2) := reads n' st1 in
      (b :: bs, st2)
  end.

(** A call from outside, and a sequence of calls. *)
Inductive Call : Type :=
| call_read
| call_detectMimeType.

Definition call (tika : list byte → string) (c : Call) (st : State)
    : State :=
  match c with
  | call_read => snd (read st)
  | call_detectMimeType => snd (detectMimeType tika st)
  end.

Definition calls (tika : list byte → string) (cs : list Call) (st : State)
    : State :=
  foldl (λ st c, call tika c st) st cs.

(** What [n] reads of a stream over [content] return: its bytes, then
    [-1]. *)
Definition expected_reads (n : nat) (content : list byte) : list Z :=
  List.map (λ i, int_of_read (content !! i)) (seq 0 n).

(** What holds of the fields after any calls on a stream over [content]:
    [probed] is set exactly when [replay] is; the buffer holds the bytes
    taken from the source so far; the replay stream, once there, is a rest
    of the buffer. *)
Definition consistent (content : list byte) (st : State) : Prop :=
  (probed st = true ↔ is_Some (replay st))
  ∧ (∃ k, source st = drop k content
          ∧ (probed st = false → buffer st = take k content))
  ∧ (∃ k, buffer st = take k content)
  ∧ (∀ r, replay st = Some r → ∃ j, r = drop j (buffer st)).

End TikaInputStream.

Module PeekableInputStream.

(** The wrapped stream [inBuf], which supports [mark] and [reset]: the
    bytes not yet read and, once marked, the bytes that were unread at the
    mark, the read limit given to [mark] and the number of bytes read since
    then. *)
Record State : Type := {
  unread : list byte;
  marked : option (list byte * nat * nat);
}.

(** [inBuf.mark(readlimit)]. *)
Definition mark (readlimit : nat) (st : State) : State :=
  {| unread := unread st; marked := Some (unread st, readlimit, 0) |}.

(** [inBuf.read(buf)] for a buffer of [len] bytes: at the end of the
    stream [-1]; otherwise the stream hands over at least one byte and at
    most [len], [S more] if that many are there ([more] is how many bytes
    beyond the first the stream has ready). *)
Definition read_into (len more : nat) (st : State)
    : Z * list byte * State :=
  match unread st with
  | [] => ((-1)%Z, [], st)
  | _ =>
      let n := (len `min` S more) `min` length (unread st) in
      (Z.of_nat n, take n (unread st),
       {| unread := drop n (unread st);
          marked := match marked st with
                    | Some (at_mark, readlimit, since) =>
                        Some (at_mark, readlimit, since + n)
                    | None => None
                    end |})
  end.

(** [inBuf.reset()]: back to the mark; it may fail once more bytes than
    the read limit have been read since the mark, and fails without a
    mark. *)
Definition reset (st : State) : Completion State :=
  match marked st with
  | Some (at_mark, readlimit, since) =>
      if (since <=? readlimit)%nat
      then Normal {| unread := at_mark;
                     marked := Some (at_mark, readlimit, 0) |}
      else Throw "Resetting to invalid mark"
  | None => Throw "Resetting to invalid mark"
  end.

(** [fun <T> peek(peekLen: Int, block: (ByteArray) -> T): T]. *)
Definition peek {T : Type} (peekLen more : nat) (block : list byte → T)
    (st : State) : Completion T * State :=
  let st1 := mark peekLen st in
  let '(n, buf, st2) := read_into peekLen more st1 in
  match reset st2 with
  | Normal st3 =>
      let slice := if (n <=? 0)%Z then [] else buf in
      (Normal (block slice), st3)
  | Throw e => (Throw e, st2)
  end.

(** [MimeDetector.detect(peekable, fallback)]; [tika] is
    [runCatching { tika.detect(bytes) }.getOrNull()]. *)
Definition detect (tika : list byte → option string) (fallback : string)
    (peekLen more : nat) (st : State) : Completion string * State :=
  peek peekLen more (λ bytes, default fallback (tika bytes)) st.

End PeekableInputStream.

Module UploadService.

(** One part of a multipart request as the loop reads it from the
    iterator: [isFormField], [name], [fieldName], the [Content-Length]
    header of the part already parsed by [toLongOrNull], the MIME type
    Tika detects on the first bytes of the stream ([None] when the
    detection throws or returns [null]), and the bytes of the stream. *)
Record FileItemInput : Type := {
  isFormField : bool;
  name : option string;
  fieldName : option string;
  contentLength : option Z;
  detected : option string;
  inputStream : list byte;
}.

(** [data class FileInfo]. *)
Record FileInfo : Type := {
  info_fieldName : string;
  filename : string;
  size : option Z;
  mimeType : string;
  compressed : bool;
  blobName : string;
}.

(** The blob container: blob names to contents. *)
Abbreviation Container := (gmap string (list byte)).

(** [private fun shouldCompressMime(mime: String): Boolean]. *)
Definition shouldCompressMime (mime : string) : bool :=
  if String.prefix "text/" mime then true
  else bool_decide (mime ∈ ["application/json"; "application/xml";
                            "application/x-ndjson"; "text/csv";
                            "application/csv"]).

Section Service.
(** [GZIPOutputStream]: the compressed form of a byte sequence. *)
Variable gzip : list byte → list byte.

(** [private fun uploadStream]: the blob is opened with
    [getBlobOutputStream(true)], which overwrites a blob of that name. *)
Definition uploadStream (container : Container) (input : list byte)
    (blobName : string) (compress : bool) : Container :=
  <[blobName := if compress then gzip input else input]> container.

(** [MimeDetector.detect] with its default fallback. *)
Definition MimeDetector_detect (item : FileItemInput) : string :=
  match detected item with
  | Some mime => mime
  | None => "application/octet-stream"
  end.

(** The body of the [while] loop for one file part: the blob written and
    the [FileInfo] added to [uploaded]. *)
Definition upload_item (forceCompression : option bool)
    (item : FileItemInput) (container : Container)
    : FileInfo * Container :=
  let originalName := default "upload.bin" (name item) in
  let field := default "file" (fieldName item) in
  let size := contentLength item in
  let mime := MimeDetector_detect item in
  let shouldCompress :=
    match forceCompression with
    | Some force => force
    | None => shouldCompressMime mime
    end in
  let '(blobName, compressed, container') :=
    if shouldCompress
    then let nameGz := originalName +:+ ".gz" in
         (nameGz, true,
          uploadStream container (inputStream item) nameGz true)
    else (originalName, false,
          uploadStream container (inputStream item) originalName false) in
  ({| info_fieldName := field; filename := originalName; size := size;
      mimeType := mime; compressed := compressed; blobName := blobName |},
   container').

(** The [while (iter.hasNext())] loop.  The iterator yields the parts of
    the request in order; [None] stands for the point where it throws a
    [FileUploadException], which the [catch] block turns into a
    [RuntimeException].  The writes to the blob store are taken to
    succeed. *)
Fixpoint upload_loop (forceCompression : option bool)
    (iter : list (option FileItemInput)) (uploaded : list FileInfo)
    (container : Container) : Completion (list FileInfo) * Container :=
  match iter with
  | [] => (Normal uploaded, container)
  | None :: _ => (Throw "Multipart parsing failed", container)
  | Some item :: rest =>
      if isFormField item
      then upload_loop forceCompression rest uploaded container
      else let (info, container') :=
             upload_item forceCompression item container in
           upload_loop forceCompression rest (uploaded ++ [info])%list
                       container'
  end.

(** [fun handleStreamingUpload(request, forceCompression)]. *)
Definition handleStreamingUpload (request : list (option FileItemInput))
    (forceCompression : option bool) (container : Container)
    : Completion (list FileInfo) * Container :=
  upload_loop forceCompression request [] container.
End Service.

(** ASCII lower case of a character; other bytes are left alone. *)
Definition lowercaseChar (c : ascii) : ascii :=
  let n := Ascii.nat_of_ascii c in
  if (65 <=? n)%nat && (n <=? 90)%nat then Ascii.ascii_of_nat (n + 32)
  else c.

(** [a.equals(b, ignoreCase = true)]. *)
Fixpoint equals_ignoreCase (a b : string) : bool :=
  match a, b with
  | EmptyString, EmptyString => true
  | String x a', String y b' =>
      Ascii.eqb (lowercaseChar x) (lowercaseChar y)
      && equals_ignoreCase a' b'
  | _, _ => false
  end.

(** [UploadController.upload]: the optional [x-compress] header decides
    [forceCompression]. *)
Definition forceCompression_of (compressHeader : option string)
    : option bool :=
  match compressHeader with
  | Some it => Some (equals_ignoreCase it "true")
  | None => None
  end.

Definition upload (gzip : list byte → list byte)
    (request : list (option FileItemInput)) (compressHeader : option string)
    (container : Container) : Completion (list FileInfo) * Container :=
  handleStreamingUpload gzip request (forceCompression_of compressHeader)
                        container.

(** The file parts of a request, in order. *)
Definition file_parts (request : list (option FileItemInput))
    : list FileItemInput :=
  List.filter (λ item, negb (isFormField item)) (omap id request).

(** The [FileInfo] that the loop adds for a file part (it does not depend
    on the container or on the compression), the bytes it writes to the
    blob, and the container after the blobs of a list of file parts have
    been written in order. *)
Definition file_info (forceCompression : option bool)
    (item : FileItemInput) : FileInfo :=
  fst (upload_item (λ bytes, bytes) forceCompression item ∅).

Definition stored (gzip : list byte → list byte)
    (forceCompression : option bool) (item : FileItemInput) : list byte :=
  if compressed (file_info forceCompression item)
  then gzip (inputStream item) else inputStream item.

Definition store_all (gzip : list byte → list byte)
    (forceCompression : option bool) (parts : list FileItemInput)
    (container : Container) : Container :=
  foldl (λ c item, <[blobName (file_info forceCompression item)
                     := stored gzip forceCompression item]> c)
        container parts.

(** A request with two files of the same name and a form field. *)
Definition request_sample : list (option FileItemInput) := [
  Some {| isFormField := false; name := Some "report.csv";
          fieldName := Some "file"; contentLength := Some 3%Z;
          detected := Some "text/csv";
          inputStream := ["a"%byte; "b"%byte; "c"%byte] |};
  Some {| isFormField := true; name := None; fieldName := Some "comment";
          contentLength := None; detected := None; inputStream := [] |};
  Some {| isFormField := false; name := Some "report.csv";
          fieldName := None; contentLength := None;
          detected := Some "text/plain";
          inputStream := ["x"%byte] |}
].

End UploadService.

(* ===================================================================== *)
(** ** Code listed in the posts: the field filter *)
(* ===================================================================== *)

(** The Kotlin listing [FieldFilterAdvice.kt] of the post on field
    filtering ([blog/2025-02-17-field-filtering.md] and its English
    version). *)
Module FieldFilterAdvice.

(** [s.split(",")]: the pieces of [s] between the delimiters, empty
    pieces included. *)
Fixpoint split (delimiter : ascii) (s : string) : list string :=
  match s with
  | EmptyString => [EmptyString]
  | String c rest =>
      if Ascii.eqb c delimiter then EmptyString :: split delimiter rest
      else match split delimiter rest with
           | piece :: pieces => String c piece :: pieces
           | [] => [String c EmptyString]
           end
  end.

(** [pieces.joinToString(",")]. *)
Definition join (delimiter : ascii) (pieces : list string) : string :=
  String.concat (String delimiter EmptyString) pieces.

(** [toSet()]: the elements are added one by one to a set that keeps the
    order of insertion. *)
Definition toSet (l : list string) : list string :=
  foldl (λ set x, if bool_decide (x ∈ set) then set else (set ++ [x])%list)
        [] l.

Section Trim.
(** [Char.isWhitespace()]. *)
Variable isWhitespace : ascii → bool.

Fixpoint trimStart (s : string) : string :=
  match s with
  | EmptyString => EmptyString
  | String c rest => if isWhitespace c then trimStart rest else s
  end.

Fixpoint trimEnd (s : string) : string :=
  match s with
  | EmptyString => EmptyString
  | String c rest =>
      match trimEnd rest with
      | EmptyString => if isWhitespace c then EmptyString
                       else String c EmptyString
      | rest' => String c rest'
      end
  end.

(** [s.trim()]. *)
Definition trim (s : string) : string := trimEnd (trimStart s).

(** [fieldsParam.split(",").map { it.trim() }.toSet()]. *)
Definition fields_of (fieldsParam : string) : list string :=
  toSet (List.map trim (split ","%char fieldsParam)).
End Trim.

(** The shared [ObjectMapper], as far as the advice writes to it: the
    property names that the filter ["dynamicFilter"] lets through, if one
    is set, and the classes that carry the mix-in. *)
Record ObjectMapper : Type := {
  dynamicFilter : option (list string);
  mixIns : gset string;
}.

(** What [beforeBodyWrite] returns: [null], the body as it is, or a
    [MappingJacksonValue] around the body with its filter. *)
Inductive Written (Body : Type) : Type :=
| written_null
| written_body (body : Body)
| written_MappingJacksonValue (body : Body) (filtered_to : list string).
Arguments written_null {Body}.
Arguments written_body {Body} body.
Arguments written_MappingJacksonValue {Body} body filtered_to.

Section Advice.
Variable isWhitespace : ascii → bool.
Context {Body : Type}.
(** [body.javaClass], by name. *)
Variable javaClass : Body → string.

(** [override fun beforeBodyWrite]; [fieldsParam] is
    [servletRequest?.getParameter("fields")]. *)
Definition beforeBodyWrite (body : option Body)
    (fieldsParam : option string) (objectMapper : ObjectMapper)
    : Written Body * ObjectMapper :=
  match body with
  | None => (written_null, objectMapper)
  | Some body =>
      match fieldsParam with
      | None => (written_body body, objectMapper)
      | Some fieldsParam =>
          let fields := fields_of isWhitespace fieldsParam in
          match fields with
          | [] => (written_body body, objectMapper)
          | _ =>
              (written_MappingJacksonValue body fields,
               {| dynamicFilter := Some fields;
                  mixIns := {[ javaClass body ]} ∪ mixIns objectMapper |})
          end
      end
  end.
End Advice.

(** White space of the ASCII range, for running the code on an input. *)
Definition ascii_whitespace (c : ascii) : bool := Ascii.is_space c.

End FieldFilterAdvice.

(* ===================================================================== *)
(** ** Properties of the feature grid *)
(* ===================================================================== *)

Section ArrayMapFacts.
Context {A B : Type}.
Implicit Types (callback : A → nat → B) (O : list A).

(** The loop from index [k] visits the next [n] elements in order. *)
Lemma map_from_imap callback O k n :
  map_from callback O k n
  = imap (λ i x, callback x (k + i)) (take n (drop k O)).
Proof.
  revert k. induction n as [|n IH]; intros k; simpl.
  - done.
  - destruct (O !! k) as [x|] eqn:Hk.
    + rewrite (drop_S _ _ _ Hk). simpl. rewrite Nat.add_0_r. f_equal.
      rewrite IH. apply imap_ext. intros i y _. simpl.
      f_equal. lia.
    + rewrite IH.
      apply lookup_ge_None in Hk.
      rewrite !drop_ge by lia. by rewrite !take_nil.
Qed.

(** [Array.prototype.map] calls the callback once per element, with the
    element and its index, and keeps the order. *)
Lemma Array_map_imap callback O :
  Array_map callback O = imap (λ i x, callback x i) O.
Proof.
  unfold Array_map. rewrite map_from_imap, drop_0, firstn_all.
  by apply imap_ext.
Qed.

Lemma Array_map_length callback O :
  length (Array_map callback O) = length O.
Proof. by rewrite Array_map_imap, length_imap. Qed.

Lemma Array_map_lookup callback O i :
  Array_map callback O !! i = (λ x, callback x i) <$> O !! i.
Proof. by rewrite Array_map_imap, list_lookup_imap. Qed.
End ArrayMapFacts.

Section GridFacts.
Variable styles : Styles.
Implicit Types (h : Heap) (item : FeatureItem).

Lemma cards_Array_map h :
  cards styles h
  = Array_map (λ props idx, FeatureElement idx props) (FeatureList_array h).
Proof. reflexivity. Qed.

Lemma cards_imap h :
  cards styles h = imap FeatureElement (FeatureList_array h).
Proof. rewrite cards_Array_map. apply Array_map_imap. Qed.

Lemma cards_lookup h i :
  cards styles h !! i = FeatureElement i <$> FeatureList_array h !! i.
Proof. by rewrite cards_imap, list_lookup_imap. Qed.

Lemma cards_length h :
  length (cards styles h) = length (FeatureList_array h).
Proof. by rewrite cards_imap, length_imap. Qed.

Lemma cards_props h :
  List.map element_props (cards styles h)
  = List.map Some (FeatureList_array h).
Proof.
  rewrite cards_imap.
  generalize (FeatureList_array h) as l. intros l.
  change (element_props <$> imap FeatureElement l = Some <$> l).
  rewrite fmap_imap. simpl. apply imap_const.
Qed.

Lemma cards_keys h :
  List.map element_key (cards styles h)
  = List.map Some (seq 0 (length (FeatureList_array h))).
Proof.
  rewrite cards_imap.
  generalize (FeatureList_array h) as l. intros l.
  change (element_key <$> imap FeatureElement l = Some <$> seq 0 (length l)).
  rewrite fmap_imap. simpl. apply (imap_seq_0 l Some).
Qed.

Lemma cards_rendered h :
  List.map (render_element styles) (cards styles h)
  = List.map (Feature styles) (FeatureList_array h).
Proof.
  rewrite cards_imap.
  generalize (FeatureList_array h) as l. intros l.
  change (render_element styles <$> imap FeatureElement l
          = Feature styles <$> l).
  rewrite fmap_imap. simpl. apply imap_const.
Qed.

(** What a card shows is the title and the description of its props. *)
Lemma Feature_outline item :
  outline (Feature styles item)
  = [IconBlock (Svg item);
     HeadingBlock "h3" (title item);
     ParagraphBlock (inner_text (description item))].
Proof.
  by destruct item.
Qed.

Lemma Feature_heading item :
  card_heading (Feature styles item) = Some [Text (title item)].
Proof. by destruct item. Qed.

Lemma Feature_paragraph item :
  card_paragraph (Feature styles item) = Some [description item].
Proof. by destruct item. Qed.
End GridFacts.

(** *** The claims about the feature grid *)

(** C1: rendering [HomepageFeatures] makes exactly one [Feature] card per
    entry of the constant [FeatureList]: the props of the cards in the row
    are the entries of the list, one for one, each card renders as [Feature]
    of its entry, and the number of cards is the length of the list,
    which is 3. *)
Theorem C1_one_card_per_entry (styles : Styles) :
  fst (HomepageFeatures styles initial_heap)
    = Normal (Intrinsic "section" (Some (features styles))
                [Intrinsic "div" (Some "container")
                   [Intrinsic "div" (Some "row")
                      (cards styles initial_heap)]])
  ∧ List.map element_props (cards styles initial_heap)
    = List.map Some FeatureList
  ∧ List.map (render_element styles) (cards styles initial_heap)
    = List.map (Feature styles) FeatureList
  ∧ forallb is_feature_element (cards styles initial_heap) = true
  ∧ length (cards styles initial_heap) = length FeatureList
  ∧ length FeatureList = 3.
Proof.
  split; [reflexivity|].
  split; [apply cards_props|].
  split; [apply cards_rendered|].
  split; [reflexivity|].
  split; [apply cards_length|reflexivity].
Qed.

(** C2: the cards are in the order of the list: the card at position [i]
    of the row is the one made from the entry at index [i], and it shows
    that entry's title in its heading and its description in its paragraph,
    unchanged.  For a list of three entries titled A, B and C the row is the
    three cards A, B, C in that order. *)
Theorem C2_cards_in_list_order (styles : Styles) (h : Heap) :
  (∀ i item,
      FeatureList_array h !! i = Some item →
      ∃ card,
        cards styles h !! i = Some card
        ∧ element_props card = Some item
        ∧ card_heading (render_element styles card) = Some [Text (title item)]
        ∧ card_paragraph (render_element styles card)
          = Some [description item]
        ∧ outline (render_element styles card)
          = [IconBlock (Svg item);
             HeadingBlock "h3" (title item);
             ParagraphBlock (inner_text (description item))])
  ∧ (∀ svgA svgB svgC dA dB dC,
        List.map (λ card, outline (render_element styles card))
          (cards styles
             {| FeatureList_array :=
                  [Build_FeatureItem "A" svgA (Text dA);
                   Build_FeatureItem "B" svgB (Text dB);
                   Build_FeatureItem "C" svgC (Text dC)] |})
        = [[IconBlock svgA; HeadingBlock "h3" "A"; ParagraphBlock dA];
           [IconBlock svgB; HeadingBlock "h3" "B"; ParagraphBlock dB];
           [IconBlock svgC; HeadingBlock "h3" "C"; ParagraphBlock dC]]).
Proof.
  split.
  - intros i item Hi. exists (FeatureElement i item).
    rewrite cards_lookup, Hi. simpl.
    auto using Feature_heading, Feature_paragraph, Feature_outline.
  - reflexivity.
Qed.

Lemma C2_cards_in_list_order_witness :
  ∃ card,
    cards styles_sample initial_heap !! 0 = Some card
    ∧ card_heading (render_element styles_sample card)
      = Some [Text "Was ich mache"]
    ∧ outline (render_element styles_sample card)
      = [IconBlock (SvgAsset "@site/static/img/undraw_docusaurus_mountain.svg");
         HeadingBlock "h3" "Was ich mache";
         ParagraphBlock "Backend, Cloud, Data Platforms"].
Proof.
  destruct (proj1 (C2_cards_in_list_order styles_sample initial_heap)
              0 _ eq_refl) as (card & H1 & _ & H2 & _ & H3).
  exists card. repeat split; assumption.
Defined.

(** C3: for every item, [Feature] returns one block: a single root element
    holding the icon, then the heading, then the paragraph; both inner
    wrappers are centred; the root takes 4 of the 12 columns of the row,
    which is one third, the share of one card among the three of the
    list. *)
Theorem C3_card_block (styles : Styles) (item : FeatureItem) :
  (∃ icon_wrapper text_wrapper,
      Feature styles item
      = Intrinsic "div" (Some "col col--4") [icon_wrapper; text_wrapper]
      ∧ outline icon_wrapper = [IconBlock (Svg item)]
      ∧ outline text_wrapper
        = [HeadingBlock "h3" (title item);
           ParagraphBlock (inner_text (description item))]
      ∧ has_class "text--center" icon_wrapper = true
      ∧ has_class "text--center" text_wrapper = true)
  ∧ (root_class (Feature styles item) ≫= col_span) = Some 4
  ∧ 4 * length FeatureList = grid_columns.
Proof.
  destruct item as [t s d]. split; [|by repeat split].
  eexists _, _. split; [reflexivity|]. by repeat split.
Qed.

(** C5: the renderer and the composer are pure.  [Feature] is a function of
    its props alone.  [HomepageFeatures] takes nothing but the heap of its
    module, completes normally on every heap, returns the heap as it was
    ([FeatureList] still holds its entries afterwards), its result depends
    on the contents of the list only, and two renders one after the other
    give the same tree. *)
Theorem C5_rendering_is_pure (styles : Styles) (h : Heap) :
  (∃ tree, HomepageFeatures styles h = (Normal tree, h))
  ∧ FeatureList_array (snd (HomepageFeatures styles initial_heap))
    = FeatureList
  ∧ (∀ h', FeatureList_array h' = FeatureList_array h →
           fst (HomepageFeatures styles h') = fst (HomepageFeatures styles h))
  ∧ (let (first, h1) := HomepageFeatures styles h in
     let (second, h2) := HomepageFeatures styles h1 in
     first = second ∧ h2 = h)
  ∧ (∀ k k' item,
        render_element styles (FeatureElement k item)
        = render_element styles (FeatureElement k' item)).
Proof.
  split; [by eexists|].
  split; [reflexivity|].
  split; [|by split].
  intros h' Heq. unfold HomepageFeatures. simpl. by rewrite Heq.
Qed.

Lemma C5_rendering_is_pure_witness :
  fst (HomepageFeatures styles_sample
         {| FeatureList_array := FeatureList_array initial_heap |})
  = fst (HomepageFeatures styles_sample initial_heap).
Proof.
  destruct (C5_rendering_is_pure styles_sample initial_heap)
    as (_ & _ & H & _).
  apply H. reflexivity.
Defined.

(** C6: the composer gives every card its position as key: the card made
    from the entry at index [i] has key [i], the keys of the row are
    0, 1, ..., n-1 in this order, and no two cards share a key. *)
Theorem C6_positional_keys (styles : Styles) (h : Heap) :
  (∀ i item,
      FeatureList_array h !! i = Some item →
      cards styles h !! i = Some (FeatureElement i item)
      ∧ (cards styles h !! i ≫= element_key) = Some i)
  ∧ List.map element_key (cards styles h)
    = List.map Some (seq 0 (length (FeatureList_array h)))
  ∧ NoDup (List.map element_key (cards styles h)).
Proof.
  split; [|split].
  - intros i item Hi. rewrite cards_lookup, Hi. by split.
  - apply cards_keys.
  - rewrite cards_keys.
    apply (NoDup_fmap_2 Some), NoDup_seq.
Qed.

Lemma C6_positional_keys_witness :
  (cards styles_sample initial_heap !! 2 ≫= element_key) = Some 2.
Proof.
  destruct (C6_positional_keys styles_sample initial_heap) as (H & _).
  exact (proj2 (H 2 _ eq_refl)).
Defined.

(* ===================================================================== *)
(** ** Properties of the site configuration *)
(* ===================================================================== *)

Section StringFacts.
Lemma append_length (s t : string) :
  String.length (s +:+ t) = String.length s + String.length t.
Proof. induction s as [|c s IH]; simpl; [done|]. by rewrite IH. Qed.

(** A common suffix can be cancelled. *)
Lemma append_inv_tail (s1 s2 t : string) :
  s1 +:+ t = s2 +:+ t → s1 = s2.
Proof.
  revert s2. induction s1 as [|c s1 IH]; intros [|c' s2] H; simpl in H.
  - done.
  - apply (f_equal String.length) in H.
    rewrite ?append_length in H. simpl in H.
    rewrite ?append_length in H. lia.
  - apply (f_equal String.length) in H.
    rewrite ?append_length in H. simpl in H.
    rewrite ?append_length in H. lia.
  - injection H as -> H. f_equal. by apply IH.
Qed.
End StringFacts.

Module SiteConfigFacts.
Import SiteConfig.

(** Different integers have different decimal representations. *)
Lemma Number_toString_inj (m n : Z) :
  Number_toString m = Number_toString n → m = n.
Proof.
  unfold Number_toString. intros H.
  apply DecimalZ.to_int_inj.
  assert (Hs : Some (Z.to_int m) = Some (Z.to_int n)).
  { by rewrite <- !NilEmpty.isi, H. }
  by injection Hs.
Qed.

Lemma copyright_inj (y1 y2 : Z) :
  copyright (footer (themeConfig (config y1)))
  = copyright (footer (themeConfig (config y2))) →
  y1 = y2.
Proof.
  simpl. intros H.
  apply Number_toString_inj.
  injection H as H.
  change (Number_toString y1 +:+ " Brigitte Böhm"
          = Number_toString y2 +:+ " Brigitte Böhm") in H.
  by apply append_inv_tail in H.
Qed.

Lemma foldl_report_failed sev e (problems : list string) :
  foldl (report sev) (BuildFailed e) problems = BuildFailed e.
Proof. induction problems as [|p ps IH]; simpl; auto. Qed.

Lemma foldl_report_warn ws (problems : list string) :
  foldl (report sev_warn) (BuildOk ws) problems = BuildOk (ws ++ problems).
Proof.
  revert ws. induction problems as [|p ps IH]; intros ws; simpl.
  - by rewrite app_nil_r.
  - by rewrite IH, <- app_assoc.
Qed.

Lemma foldl_report_throw ws p (problems : list string) :
  foldl (report sev_throw) (BuildOk ws) (p :: problems) = BuildFailed p.
Proof. simpl. apply foldl_report_failed. Qed.

(** With this configuration a build records the inline authors and the
    unresolved Markdown links as warnings and then checks the links. *)
Lemma build_config year (s : Site) :
  build (config year) s
  = foldl (report sev_throw)
      (BuildOk (inline_authors s ++ unresolved_markdown_links s))
      (broken_links s).
Proof.
  unfold build.
  change (severity_of_inline_authors (config year)) with sev_warn.
  change (onBrokenMarkdownLinks (config year)) with sev_warn.
  change (onBrokenLinks (config year)) with sev_throw.
  by rewrite !foldl_report_warn.
Qed.
End SiteConfigFacts.

Section SiteConfigClaims.
Import SiteConfig SiteConfigFacts.

(** C9: the configuration sets [onBrokenLinks] to ['throw'] and
    [onBrokenMarkdownLinks] and the blog's [onInlineAuthors] to ['warn'].
    So a build of a site with an internal link whose target is not a route
    fails, with a broken link as its error, while unresolved Markdown
    links and inline authors alone end in a successful build that lists
    them as warnings. *)
Theorem C9_broken_links_throw (fullYear : Z) (s : Site) (target : string) :
  target ∈ internal_links s →
  target ∉ routes s →
  onBrokenLinks (config fullYear) = sev_throw
  ∧ onBrokenMarkdownLinks (config fullYear) = sev_warn
  ∧ (onInlineAuthors <$> blog_options (config fullYear)) = Some sev_warn
  ∧ (∃ e, build (config fullYear) s = BuildFailed e
          ∧ e ∈ internal_links s ∧ e ∉ routes s)
  ∧ build (config fullYear) (without_links s)
    = BuildOk (inline_authors s ++ unresolved_markdown_links s).
Proof.
  intros Hlink Hroute.
  split; [reflexivity|]. split; [reflexivity|]. split; [reflexivity|].
  split; [|by rewrite build_config].
  rewrite build_config.
  assert (Hin : In target (broken_links s)).
  { apply filter_In. split; [by apply list_elem_of_In|].
    by apply bool_decide_eq_true_2. }
  destruct (broken_links s) as [|e rest] eqn:Hb; [done|].
  exists e. rewrite foldl_report_throw. split; [done|].
  assert (He : In e (broken_links s)) by (rewrite Hb; by left).
  apply filter_In in He as [He1 He2].
  split; [by apply list_elem_of_In|by apply bool_decide_eq_true_1 in He2].
Qed.

Lemma C9_broken_links_throw_witness :
  build (config 2025) site_with_broken_link = BuildFailed "/contact"
  ∧ build (config 2025) (without_links site_with_broken_link)
    = BuildOk ["./missing.md"].
Proof.
  assert (H1 : "/contact" ∈ internal_links site_with_broken_link).
  { apply list_elem_of_In. vm_compute. auto. }
  assert (H2 : "/contact" ∉ routes site_with_broken_link).
  { apply (bool_decide_unpack _). vm_compute. exact I. }
  destruct (C9_broken_links_throw 2025 site_with_broken_link "/contact"
              H1 H2) as (_ & _ & _ & _ & Hok).
  split; [reflexivity|exact Hok].
Defined.

(** C10: the copyright line of the footer holds the year read from the
    clock when the configuration is evaluated (for 2025 it is
    "© 2025 Brigitte Böhm").  Two evaluations give equal configuration
    objects exactly when they read the same year, so no single object is
    the configuration of every build. *)
Theorem C10_copyright_follows_the_clock (y1 y2 : Z) :
  copyright (footer (themeConfig (config 2025))) = "© 2025 Brigitte Böhm"
  ∧ (y1 = y2 → config y1 = config y2)
  ∧ (y1 ≠ y2 → config y1 ≠ config y2)
  ∧ ¬ (∃ c, ∀ fullYear, config fullYear = c).
Proof.
  split; [reflexivity|]. split; [by intros ->|]. split.
  - intros Hne Heq. apply Hne, copyright_inj. by rewrite Heq.
  - intros [c Hc].
    assert (H : (2025 = 2026)%Z); [|done].
    apply copyright_inj. by rewrite !Hc.
Qed.

Lemma C10_copyright_follows_the_clock_witness :
  config 2025 ≠ config 2026 ∧ config 2025 = config 2025.
Proof.
  destruct (C10_copyright_follows_the_clock 2025 2026) as (_ & _ & H & _).
  destruct (C10_copyright_follows_the_clock 2025 2025) as (_ & H' & _).
  split; [apply H; discriminate|apply H'; reflexivity].
Defined.
End SiteConfigClaims.

(* ===================================================================== *)
(** ** Properties of the blog posts *)
(* ===================================================================== *)

Section BlogClaims.
Import Blog.

(** Every document has a front-matter block with a slug entry. *)
Lemma documents_have_slug :
  Forall (λ d, is_Some (front_matter d) ∧ is_Some (slug d)) documents.
Proof. repeat (constructor; [split; by eexists|]). constructor. Qed.

(** C7: every document opens with a front-matter block that declares a
    slug, and inside a content set (the German default set, the English
    set) the slugs are pairwise different. *)
Theorem C7_slugs_unique_per_locale :
  Forall (λ d, is_Some (front_matter d) ∧ is_Some (slug d)) documents
  ∧ NoDup (slug <$> in_content_set DefaultContent)
  ∧ NoDup (slug <$> in_content_set EnglishContent)
  ∧ length (in_content_set DefaultContent) = 5
  ∧ length (in_content_set EnglishContent) = 5.
Proof.
  split; [|split; [|split]].
  - apply documents_have_slug.
  - apply (bool_decide_unpack _). by vm_compute.
  - apply (bool_decide_unpack _). by vm_compute.
  - by split.
Qed.

(** All pairs of a German and an English version carry the same slug. *)
Lemma pairs_share_slug :
  Forall (λ de, Forall (λ en,
      localized_pair de en = true → slug de = slug en) documents) documents.
Proof. apply (bool_decide_unpack _). by vm_compute. Qed.

(** Every post of the sources has one German and one English version. *)
Lemma documents_bilingual : bilingual.
Proof. apply (bool_decide_unpack _). by vm_compute. Qed.

End BlogClaims.

Section LocalizationClaims.
Import Blog SiteConfig.

(** C4, as stated, does not hold: the posts do exist in both languages,
    but the locales of the i18n configuration do not include German. *)
Lemma C4_locales_counterexample :
  ¬ (bilingual
     ∧ Forall (λ locale, locale ∈ locales (i18n (config 2025)))
              ["en"; "de"]).
Proof.
  intros [_ H].
  apply Forall_cons in H as [_ H]. apply Forall_cons in H as [H _].
  revert H. apply (bool_decide_unpack _). by vm_compute.
Qed.

(** C4, amended: every post of the sources has a German version, in the
    default content set, and an English version, in the English content
    set; the i18n configuration declares one locale, ["en"], which is the
    default locale, and German is not among its locales. *)
Theorem C4_posts_bilingual_one_locale (fullYear : Z) :
  bilingual
  ∧ locales (i18n (config fullYear)) = ["en"]
  ∧ defaultLocale (i18n (config fullYear)) = "en"
  ∧ "de" ∉ locales (i18n (config fullYear)).
Proof.
  split; [apply documents_bilingual|].
  split; [reflexivity|]. split; [reflexivity|].
  apply (bool_decide_unpack _). by vm_compute.
Qed.

(** Looking a pair up by slug finds the other version. *)
Lemma pairs_found_by_slug :
  Forall (λ de, Forall (λ en,
      localized_pair de en = true →
      find_by_slug DefaultContent en = Some de
      ∧ find_by_slug EnglishContent de = Some en) documents) documents.
Proof. apply (bool_decide_unpack _). by vm_compute. Qed.

(** C8, as stated, does not hold: the two versions of the post on streaming
    uploads declare the same slug, but the site is not configured for a
    German locale, so no switch leads from the English version to the
    German one. *)
Lemma C8_locale_switch_counterexample :
  ¬ (∀ de en,
        de ∈ documents → en ∈ documents →
        localized_pair de en = true →
        slug de = slug en
        ∧ switch_locale (locales (i18n (config 2025))) "de" en = Some de
        ∧ switch_locale (locales (i18n (config 2025))) "en" de = Some en).
Proof.
  intros H.
  assert (Hde : blog_springboot_fileupload_azure ∈ documents).
  { unfold documents. repeat constructor. }
  assert (Hen : i18n_en_springboot_fileupload_azure ∈ documents).
  { unfold documents. repeat constructor. }
  destruct (H _ _ Hde Hen eq_refl) as (_ & Hswitch & _).
  vm_compute in Hswitch. discriminate.
Qed.

(** C8, amended: the German and the English version of one post declare
    the same slug, so that looking the slug up in the content of the other
    language finds the other version; but the site is configured for the
    single locale ["en"] and its navigation bar holds links only, so there
    is no switch to German, from any document. *)
Theorem C8_pair_shares_slug_one_locale (fullYear : Z) (de en : Document) :
  de ∈ documents →
  en ∈ documents →
  localized_pair de en = true →
  is_Some (slug de)
  ∧ slug de = slug en
  ∧ find_by_slug DefaultContent en = Some de
  ∧ find_by_slug EnglishContent de = Some en
  ∧ locales (i18n (config fullYear)) = ["en"]
  ∧ Forall (λ item, is_Some (to item) ∨ is_Some (href item))
           (navbar_items (navbar (themeConfig (config fullYear))))
  ∧ (∀ d, switch_locale (locales (i18n (config fullYear))) "de" d = None).
Proof.
  intros Hde Hen Hpair.
  pose proof documents_have_slug as Hslug.
  rewrite Forall_forall in Hslug. destruct (Hslug de Hde) as [_ Hs].
  pose proof pairs_share_slug as H.
  rewrite Forall_forall in H. specialize (H de Hde).
  rewrite Forall_forall in H. specialize (H en Hen Hpair).
  pose proof pairs_found_by_slug as Hf.
  rewrite Forall_forall in Hf. specialize (Hf de Hde).
  rewrite Forall_forall in Hf. destruct (Hf en Hen Hpair) as [Hf1 Hf2].
  split; [done|]. split; [done|]. split; [done|]. split; [done|].
  split; [reflexivity|]. split; [|done].
  repeat (constructor; [simpl; by eauto|]). constructor.
Qed.

Lemma C8_pair_shares_slug_one_locale_witness :
  slug blog_springboot_fileupload_azure
  = slug i18n_en_springboot_fileupload_azure
  ∧ find_by_slug DefaultContent i18n_en_springboot_fileupload_azure
    = Some blog_springboot_fileupload_azure
  ∧ switch_locale (locales (i18n (config 2025))) "de"
      i18n_en_springboot_fileupload_azure = None.
Proof.
  assert (Hde : blog_springboot_fileupload_azure ∈ documents).
  { unfold documents. repeat constructor. }
  assert (Hen : i18n_en_springboot_fileupload_azure ∈ documents).
  { unfold documents. repeat constructor. }
  destruct (C8_pair_shares_slug_one_locale 2025 _ _ Hde Hen eq_refl)
    as (_ & H1 & H2 & _ & _ & _ & H3).
  split; [exact H1|]. split; [exact H2|apply H3].
Defined.
End LocalizationClaims.

(* ===================================================================== *)
(** ** Further properties of the feature grid *)
(* ===================================================================== *)

(** X1: [Array.prototype.map], as [HomepageFeatures] calls it, returns an array
    of the length of its receiver whose element at index [i] is the
    callback applied to the receiver's element at [i] and to [i]; beyond
    the end both have no element. *)
Theorem Array_map_elements {A B : Type} (callback : A → nat → B)
    (O : list A) (i : nat) :
  length (Array_map callback O) = length O
  ∧ Array_map callback O !! i = (λ x, callback x i) <$> O !! i
  ∧ (Array_map callback O !! i = None ↔ (length O ≤ i)%nat).
Proof.
  split; [apply Array_map_length|].
  split; [apply Array_map_lookup|].
  rewrite lookup_ge_None, Array_map_length. done.
Qed.

(** X2: The row has no card exactly when the list has no entry; the section
    and its two wrappers are rendered all the same. *)
Theorem empty_list_empty_row (styles : Styles) (h : Heap) :
  (cards styles h = [] ↔ FeatureList_array h = [])
  ∧ (FeatureList_array h = [] →
     fst (HomepageFeatures styles h)
     = Normal (Intrinsic "section" (Some (features styles))
                 [Intrinsic "div" (Some "container")
                    [Intrinsic "div" (Some "row") []]])).
Proof.
  split.
  - rewrite cards_imap. destruct (FeatureList_array h); simpl; split; done.
  - intros Hnil. unfold HomepageFeatures. simpl. by rewrite Hnil.
Qed.

Lemma empty_list_empty_row_witness :
  fst (HomepageFeatures styles_sample {| FeatureList_array := [] |})
  = Normal (Intrinsic "section" (Some "features_t9Lx")
              [Intrinsic "div" (Some "container")
                 [Intrinsic "div" (Some "row") []]]).
Proof.
  apply (proj2 (empty_list_empty_row styles_sample
                  {| FeatureList_array := [] |})).
  reflexivity.
Defined.

(** X3: Keys are positions, not identities: when entries are put in front of
    an entry, its card moves to the new position and gets the new position
    as key. *)
Theorem keys_shift_with_position (styles : Styles)
    (before after : list FeatureItem) (i : nat) (item : FeatureItem) :
  after !! i = Some item →
  cards styles {| FeatureList_array := after |} !! i
  = Some (FeatureElement i item)
  ∧ cards styles {| FeatureList_array := before ++ after |}
      !! (length before + i)
    = Some (FeatureElement (length before + i) item)
  ∧ cards styles {| FeatureList_array := before ++ after |}
    = (cards styles {| FeatureList_array := before |}
       ++ imap (λ j, FeatureElement (length before + j)) after)%list.
Proof.
  intros Hi. rewrite !cards_lookup. simpl.
  rewrite lookup_app_r by lia.
  replace (length before + i - length before) with i by lia.
  rewrite Hi. split; [done|]. split; [done|].
  rewrite !cards_imap. simpl. by rewrite imap_app.
Qed.

Lemma keys_shift_with_position_witness :
  cards styles_sample
    {| FeatureList_array :=
         [Build_FeatureItem "Neu" (SvgAsset "neu.svg") (Text "neu")]
         ++ FeatureList |} !! 1
  = Some (FeatureElement 1
            (Build_FeatureItem "Was ich mache"
               (SvgAsset "@site/static/img/undraw_docusaurus_mountain.svg")
               (Fragment [Text "Backend, Cloud, Data Platforms"]))).
Proof.
  destruct (keys_shift_with_position styles_sample
              [Build_FeatureItem "Neu" (SvgAsset "neu.svg") (Text "neu")]
              FeatureList 0 _ eq_refl) as (_ & H & _).
  exact H.
Defined.

(** X4: [Feature] loses nothing of its props: two items with the same card are
    the same item. *)
Theorem Feature_injective (styles : Styles) (a b : FeatureItem) :
  Feature styles a = Feature styles b → a = b.
Proof.
  destruct a as [ta sa da], b as [tb sb db]. simpl.
  intros H. injection H as Hs Ht Hd. congruence.
Qed.

Lemma Feature_injective_witness :
  Build_FeatureItem "A" (SvgAsset "a.svg") (Text "a")
  = Build_FeatureItem "A" (SvgAsset "a.svg") (Text "a").
Proof.
  apply (Feature_injective styles_sample). reflexivity.
Defined.





(** Splitting into words distributes over a separating space. *)
Lemma words_go_app_space (cur : option string) (s1 s2 : string) :
  String.words_go cur (s1 +:+ String " " s2)
  = (String.words_go cur s1 ++ String.words_go None s2)%list.
Proof.
  revert cur. induction s1 as [|a s1 IH]; intros cur; simpl.
  - done.
  - destruct (Ascii.is_space a).
    + by rewrite IH, app_assoc.
    + apply IH.
Qed.

(** X6: [clsx] keeps the class tokens of its arguments: the tokens of the
    result are those of the arguments, in order, none lost, none added. *)
Theorem clsx_keeps_tokens (args : list string) :
  class_tokens (clsx args) = List.flat_map class_tokens args.
Proof.
  unfold class_tokens, String.words.
  induction args as [|a rest IH]; simpl; [done|].
  destruct (String.eqb_spec a EmptyString) as [->|Ha]; [done|].
  destruct (String.eqb_spec (clsx rest) EmptyString) as [Hr|Hr].
  - rewrite Hr in IH. simpl in IH. by rewrite <- IH, app_nil_r.
  - change (a +:+ " " +:+ clsx rest) with (a +:+ String " " (clsx rest)).
    by rewrite words_go_app_space, IH.
Qed.

(* ===================================================================== *)
(** ** Further properties of the configuration and of the documents *)
(* ===================================================================== *)

(** X7: The clock reaches the copyright line of the footer and nothing else:
    with that line set aside, the configuration is the same whatever the
    year, and putting the line of a year back gives the configuration of
    that year. *)
Theorem clock_reaches_copyright_only (y1 y2 : Z) (text : string) :
  with_copyright text (SiteConfig.config y1)
  = with_copyright text (SiteConfig.config y2)
  ∧ with_copyright
      (SiteConfig.copyright
         (SiteConfig.footer (SiteConfig.themeConfig (SiteConfig.config y2))))
      (SiteConfig.config y1)
    = SiteConfig.config y2.
Proof. split; reflexivity. Qed.

Section DocumentExtras.
Import Blog.

(** Lines after the closing fence do not reach the front matter. *)
Lemma until_fence_app (lines body block : list string) :
  until_fence lines = Some block →
  until_fence (lines ++ body) = Some block.
Proof.
  revert block. induction lines as [|l rest IH]; intros block; simpl.
  - done.
  - destruct (String.eqb l "---"); [done|].
    destruct (until_fence rest) as [b|] eqn:Hb; [|done].
    intros [= <-]. by rewrite (IH b eq_refl).
Qed.

(** X8: The front matter of a document is decided by its lines up to the
    closing fence: whatever body follows, the entries are the same. *)
Theorem front_matter_ignores_body (d : Document) (body : list string) :
  is_Some (front_matter d) →
  front_matter (with_body d body) = front_matter d
  ∧ slug (with_body d body) = slug d.
Proof.
  intros [entries Hfm].
  assert (H : front_matter (with_body d body) = front_matter d).
  { unfold front_matter in *. simpl.
    destruct (front_matter_lines (head d)) as [block|] eqn:Hb; [|done].
    unfold front_matter_lines in *.
    destruct (head d) as [|l rest]; [done|]. simpl.
    destruct (String.eqb l "---"); [|done].
    by rewrite (until_fence_app _ _ _ Hb). }
  split; [done|]. unfold slug, field. by rewrite H.
Qed.

Lemma front_matter_ignores_body_witness :
  slug (with_body part_003
          ["import Admonition from '@theme/Admonition';"; "---";
           "slug: other"])
  = Some "terraform-patterns-aks-azure".
Proof.
  assert (H : is_Some (front_matter part_003)) by (by eexists).
  destruct (front_matter_ignores_body part_003
              ["import Admonition from '@theme/Admonition';"; "---";
               "slug: other"] H) as [_ ->].
  reflexivity.
Defined.

(** X9: Every document declares the same six entries, in the same order. *)
Theorem documents_declare_six_entries :
  Forall (λ d, front_matter_keys d
               = Some ["slug"; "title"; "authors"; "tags"; "date";
                       "description"]) documents.
Proof. repeat (constructor; [reflexivity|]). constructor. Qed.

Lemma slug_decides_post :
  Forall (λ d, Forall (λ e,
      slug d = slug e ↔ same_post d e = true) documents) documents.
Proof. apply (bool_decide_unpack _). by vm_compute. Qed.

(** X10: The slug identifies the post: two documents carry the same slug
    exactly when they are versions of the same post, that is, when their
    date, tags and authors agree. *)
Theorem same_slug_same_post (d e : Document) :
  d ∈ documents →
  e ∈ documents →
  slug d = slug e ↔ same_post d e = true.
Proof.
  intros Hd He.
  pose proof slug_decides_post as H.
  rewrite Forall_forall in H. specialize (H d Hd).
  rewrite Forall_forall in H. exact (H e He).
Qed.

Lemma same_slug_same_post_witness :
  same_post part_002 part_000 = true
  ∧ slug part_002 = Some "workload-identity-lessons-learned".
Proof.
  assert (Hd : part_002 ∈ documents).
  { unfold documents. repeat constructor. }
  assert (He : part_000 ∈ documents).
  { unfold documents. repeat constructor. }
  split; [|reflexivity].
  apply (same_slug_same_post part_002 part_000 Hd He). reflexivity.
Defined.
End DocumentExtras.

(* ===================================================================== *)
(** ** Properties of the upload listings *)
(* ===================================================================== *)

Module TikaInputStreamFacts.
Import TikaInputStream.

Lemma expected_reads_S (n : nat) (content : list byte) :
  expected_reads (S n) content
  = int_of_read (head content) :: expected_reads n (tail content).
Proof.
  unfold expected_reads. simpl. f_equal.
  - by destruct content.
  - rewrite <- fmap_S_seq.
    change (S <$> seq 0 n) with (List.map S (seq 0 n)).
    rewrite List.map_map. apply List.map_ext. intros i.
    by destruct content.
Qed.

(** Reads of a stream that has not been probed pass the source through
    and copy it to the buffer. *)
Lemma reads_unprobed (n : nat) (src buf : list byte) :
  reads n {| source := src; buffer := buf; replay := None; probed := false |}
  = (expected_reads n src,
     {| source := drop n src; buffer := (buf ++ take n src)%list;
        replay := None; probed := false |}).
Proof.
  revert src buf. induction n as [|n IH]; intros src buf.
  - simpl. by rewrite drop_0, app_nil_r.
  - rewrite expected_reads_S.
    cbn [reads read replay source buffer probed negb].
    destruct src as [|b src]; simpl head; simpl tail; cbv iota.
    + rewrite IH. simpl. by rewrite !drop_nil, !take_nil.
    + rewrite IH. simpl. by rewrite <- app_assoc.
Qed.

(** Reads of a probed stream come from the replay stream and leave the
    source and the buffer alone. *)
Lemma reads_replay (n : nat) (src buf r : list byte) (p : bool) :
  reads n {| source := src; buffer := buf; replay := Some r; probed := p |}
  = (expected_reads n r,
     {| source := src; buffer := buf; replay := Some (drop n r);
        probed := p |}).
Proof.
  revert r. induction n as [|n IH]; intros r.
  - simpl. by rewrite drop_0.
  - rewrite expected_reads_S.
    cbn [reads read replay source buffer probed].
    rewrite IH. do 3 f_equal.
    destruct r; simpl; [by rewrite drop_nil|done].
Qed.

Lemma tail_drop {A : Type} (l : list A) (j : nat) :
  tail (drop j l) = drop (S j) l.
Proof.
  revert l. induction j as [|j IH]; intros [|x l]; simpl; auto.
Qed.

Lemma consistent_new (content : list byte) : consistent content (new content).
Proof.
  unfold consistent, new. simpl. split; [|split; [|split]].
  - split; [done|]. by intros [? ?].
  - exists 0. by rewrite drop_0.
  - by exists 0.
  - done.
Qed.

Lemma consistent_read (content : list byte) (st : State) :
  consistent content st → consistent content (snd (read st)).
Proof.
  intros (Hp & (k & Hsrc & Hbuf) & (k' & Hbuf') & Hr).
  unfold read. destruct (replay st) as [r|] eqn:Hreplay; simpl.
  - unfold consistent. simpl. split; [|split; [|split]].
    + rewrite Hp. split; by eexists.
    + exists k. split; [done|]. intros Hfalse.
      destruct Hp as [_ Hp]. rewrite Hp in Hfalse by (by eexists). done.
    + by exists k'.
    + intros r' [= <-]. destruct (Hr r eq_refl) as [j ->].
      exists (S j). apply tail_drop.
  - assert (Hfalse : probed st = false).
    { destruct (probed st); [|done].
      destruct Hp as [Hp _]. by destruct (Hp eq_refl). }
    rewrite Hfalse. simpl. specialize (Hbuf Hfalse).
    assert (Hhead : head (source st) = content !! k).
    { rewrite Hsrc. by rewrite head_lookup, lookup_drop, Nat.add_0_r. }
    assert (Htail : tail (source st) = drop (S k) content).
    { rewrite Hsrc. apply tail_drop. }
    assert (Hnew : match head (source st) with
                   | Some x => (buffer st ++ [x])%list
                   | None => buffer st
                   end = take (S k) content).
    { rewrite Hhead, Hbuf. destruct (content !! k) as [x|] eqn:Hk.
      - by rewrite (take_S_r _ _ _ Hk).
      - apply lookup_ge_None in Hk. by rewrite !take_ge by lia. }
    unfold consistent. simpl. split; [|split; [|split]].
    + split; [done|]. by intros [? ?].
    + exists (S k). by rewrite Htail, Hnew.
    + exists (S k). by rewrite Hnew.
    + done.
Qed.

Lemma consistent_detectMimeType tika (content : list byte) (st : State) :
  consistent content st → consistent content (snd (detectMimeType tika st)).
Proof.
  intros (Hp & (k & Hsrc & Hbuf) & Hbuf' & Hr).
  unfold detectMimeType. destruct (probed st) eqn:Hprobed; simpl.
  - unfold consistent. rewrite Hprobed. by eauto 10.
  - unfold consistent. simpl. split; [|split; [|split]].
    + split; by eauto.
    + exists k. by split.
    + done.
    + intros r [= <-]. by exists 0.
Qed.
End TikaInputStreamFacts.

Section TikaInputStreamClaims.
Import TikaInputStream TikaInputStreamFacts.

(** X11: Until [detectMimeType] is called, [read] passes the source through:
    [n] reads return the first [n] bytes of the content, then [-1] once
    the content is used up, and the buffer holds every byte returned. *)
Theorem reads_pass_the_source_through (content : list byte) (n : nat) :
  reads n (new content)
  = (expected_reads n content,
     {| source := drop n content; buffer := take n content;
        replay := None; probed := false |}).
Proof. unfold new. by rewrite reads_unprobed. Qed.

(** X12: After [detectMimeType] the stream no longer reads its source.  Called
    after [k] reads, it hands Tika the bytes read so far and makes the
    stream replay these bytes and then end: later reads return them once
    more and then [-1], the content after the first [k] bytes stays in the
    source and is never returned, and a second call only answers
    [application/octet-stream]. *)
Theorem probing_ends_the_stream (tika : list byte → string)
    (content : list byte) (k m : nat) :
  let before := snd (reads k (new content)) in
  let after := snd (detectMimeType tika before) in
  fst (detectMimeType tika before) = tika (take k content)
  ∧ fst (reads m after) = expected_reads m (take k content)
  ∧ source (snd (reads m after)) = drop k content
  ∧ detectMimeType tika (snd (reads m after))
    = ("application/octet-stream", snd (reads m after)).
Proof.
  unfold new. rewrite reads_unprobed. simpl.
  rewrite reads_replay. simpl. by repeat split.
Qed.

(** X13: Whatever calls are made, in whatever order, the fields stay
    consistent: [probed] is set exactly when the replay stream exists, the
    buffer is a beginning of the content, the source is a rest of it, and
    the replay stream is a rest of the buffer.  So the test of [probed] in
    [read], reached only without a replay stream, always finds it unset. *)
Theorem fields_stay_consistent (tika : list byte → string)
    (content : list byte) (cs : list Call) :
  consistent content (calls tika cs (new content))
  ∧ (replay (calls tika cs (new content)) = None →
     probed (calls tika cs (new content)) = false).
Proof.
  assert (H : consistent content (calls tika cs (new content))).
  { unfold calls. generalize (consistent_new content).
    generalize (new content) as st. induction cs as [|c cs IH]; intros st Hst.
    - done.
    - simpl. apply IH. destruct c; simpl.
      + by apply consistent_read.
      + by apply consistent_detectMimeType. }
  split; [done|]. intros Hnone. destruct H as ([Hp _] & _).
  destruct (probed _); [|done].
  destruct (Hp eq_refl) as [r Hr]. congruence.
Qed.

Lemma fields_stay_consistent_witness :
  probed (calls (λ _, "text/plain")
            [call_read; call_read]
            (new ["a"%byte; "b"%byte; "c"%byte])) = false.
Proof.
  apply (fields_stay_consistent (λ _, "text/plain")
           ["a"%byte; "b"%byte; "c"%byte] [call_read; call_read]).
  reflexivity.
Defined.
End TikaInputStreamClaims.

Module UploadServiceFacts.
Import UploadService.

Section WithGzip.
Variable gzip : list byte → list byte.
Variable forceCompression : option bool.

Lemma upload_item_eq (item : FileItemInput) (container : Container) :
  upload_item gzip forceCompression item container
  = (file_info forceCompression item,
     <[blobName (file_info forceCompression item)
       := stored gzip forceCompression item]> container).
Proof.
  unfold stored, file_info, upload_item, uploadStream.
  by destruct forceCompression as [[]|],
       (shouldCompressMime (MimeDetector_detect item)).
Qed.

(** The loop over a request whose parts can all be read. *)
Lemma upload_loop_readable (items : list FileItemInput)
    (uploaded : list FileInfo) (container : Container) :
  upload_loop gzip forceCompression (Some <$> items) uploaded container
  = (Normal (uploaded
             ++ List.map (file_info forceCompression)
                  (List.filter (λ item, negb (isFormField item)) items))%list,
     store_all gzip forceCompression
       (List.filter (λ item, negb (isFormField item)) items) container).
Proof.
  revert uploaded container.
  induction items as [|item items IH]; intros uploaded container; simpl.
  - by rewrite app_nil_r.
  - destruct (isFormField item); simpl; [apply IH|].
    rewrite upload_item_eq, IH. by rewrite <- app_assoc.
Qed.

(** The loop stops at the point where the iterator throws. *)
Lemma upload_loop_throws (items : list FileItemInput)
    (rest : list (option FileItemInput))
    (uploaded : list FileInfo) (container : Container) :
  upload_loop gzip forceCompression ((Some <$> items) ++ None :: rest)
              uploaded container
  = (Throw "Multipart parsing failed",
     store_all gzip forceCompression
       (List.filter (λ item, negb (isFormField item)) items) container).
Proof.
  revert uploaded container.
  induction items as [|item items IH]; intros uploaded container; simpl.
  - done.
  - destruct (isFormField item); simpl; [apply IH|].
    by rewrite upload_item_eq, IH.
Qed.

Lemma readable_request (request : list (option FileItemInput)) :
  Forall is_Some request → request = Some <$> omap id request.
Proof.
  induction 1 as [|o request Ho _ IH]; [done|].
  destruct Ho as [item ->]. simpl. by f_equal.
Qed.

Lemma store_all_other (parts : list FileItemInput) (container : Container)
    (k : string) :
  Forall (λ item, blobName (file_info forceCompression item) ≠ k) parts →
  store_all gzip forceCompression parts container !! k = container !! k.
Proof.
  unfold store_all. revert container.
  induction parts as [|item parts IH]; intros container Hall; simpl.
  - done.
  - apply Forall_cons in Hall as [Hne Hall].
    rewrite IH by done. by rewrite lookup_insert_ne.
Qed.

Lemma store_all_app (l1 l2 : list FileItemInput) (container : Container) :
  store_all gzip forceCompression (l1 ++ l2) container
  = store_all gzip forceCompression l2
      (store_all gzip forceCompression l1 container).
Proof. unfold store_all. apply foldl_app. Qed.

Lemma store_all_last (parts : list FileItemInput) (container : Container)
    (i : nat) (item : FileItemInput) :
  parts !! i = Some item →
  (∀ j later, i < j → parts !! j = Some later →
      blobName (file_info forceCompression later)
      ≠ blobName (file_info forceCompression item)) →
  store_all gzip forceCompression parts container
    !! blobName (file_info forceCompression item)
  = Some (stored gzip forceCompression item).
Proof.
  intros Hi Hlater.
  rewrite <- (take_drop_middle parts i item Hi), store_all_app.
  change (store_all gzip forceCompression (item :: drop (S i) parts) ?c)
    with (store_all gzip forceCompression (drop (S i) parts)
            (<[blobName (file_info forceCompression item)
               := stored gzip forceCompression item]> c)).
  rewrite store_all_other.
  - apply lookup_insert_eq.
  - apply Forall_lookup. intros j later Hj.
    rewrite lookup_drop in Hj. apply (Hlater (S i + j)); [lia|done].
Qed.

Lemma handleStreamingUpload_readable
    (request : list (option FileItemInput)) (container : Container) :
  Forall is_Some request →
  handleStreamingUpload gzip request forceCompression container
  = (Normal (List.map (file_info forceCompression) (file_parts request)),
     store_all gzip forceCompression (file_parts request) container).
Proof.
  intros Hreadable. unfold handleStreamingUpload.
  rewrite (readable_request request Hreadable) at 1.
  by rewrite upload_loop_readable.
Qed.

Lemma file_info_naming (item : FileItemInput) :
  let info := file_info forceCompression item in
  blobName info
  = (if compressed info then filename info +:+ ".gz" else filename info)
  ∧ compressed info
    = default (shouldCompressMime (mimeType info)) forceCompression.
Proof.
  unfold file_info, upload_item.
  destruct forceCompression as [[]|]; simpl; [done|done|].
  destruct (shouldCompressMime (MimeDetector_detect item)) eqn:Hmime;
    simpl; by rewrite ?Hmime.
Qed.
End WithGzip.
End UploadServiceFacts.

Section UploadServiceClaims.
Import UploadService UploadServiceFacts.

(** X15: [shouldCompressMime] compresses exactly the MIME types that begin with
    [text/] and four [application/] types; the entry [text/csv] of its set
    is covered by the test of the prefix and decides nothing. *)
Theorem shouldCompressMime_types (mime : string) :
  shouldCompressMime mime = true
  ↔ String.prefix "text/" mime = true
    ∨ mime ∈ ["application/json"; "application/xml";
              "application/x-ndjson"; "application/csv"].
Proof.
  unfold shouldCompressMime.
  destruct (String.prefix "text/" mime) eqn:Hprefix.
  - split; auto.
  - rewrite bool_decide_eq_true, !elem_of_cons, !elem_of_nil.
    split.
    + intros [->|[->|[->|[->|[->|[]]]]]]; auto 10;
        by vm_compute in Hprefix.
    + intros [|[->|[->|[->|[->|[]]]]]]; auto 10; done.
Qed.



(** X17: After the upload of a readable request, a blob named by a file part
    holds the bytes of the last part that names it, compressed if that
    part was: an earlier upload to the same name is overwritten.  Blobs
    that no file part names are as they were. *)
Theorem blob_holds_last_upload (gzip : list byte → list byte)
    (request : list (option FileItemInput))
    (forceCompression : option bool) (container : Container)
    (i : nat) (item : FileItemInput) :
  Forall is_Some request →
  file_parts request !! i = Some item →
  (∀ j later, i < j → file_parts request !! j = Some later →
      blobName (file_info forceCompression later)
      ≠ blobName (file_info forceCompression item)) →
  snd (handleStreamingUpload gzip request forceCompression container)
    !! blobName (file_info forceCompression item)
  = Some (stored gzip forceCompression item)
  ∧ (∀ other,
        Forall (λ part, blobName (file_info forceCompression part) ≠ other)
               (file_parts request) →
        snd (handleStreamingUpload gzip request forceCompression container)
          !! other
        = container !! other).
Proof.
  intros Hreadable Hi Hlater.
  assert (Hstore :
    snd (handleStreamingUpload gzip request forceCompression container)
    = store_all gzip forceCompression (file_parts request) container).
  { by rewrite handleStreamingUpload_readable. }
  rewrite Hstore. split.
  - by apply store_all_last with (i := i).
  - intros other Hother. by apply store_all_other.
Qed.

Lemma blob_holds_last_upload_witness :
  snd (handleStreamingUpload (λ bytes, bytes) request_sample None ∅)
    !! "report.csv.gz"
  = Some ["x"%byte].
Proof.
  assert (H : Forall is_Some request_sample).
  { repeat (constructor; [by eexists|]). constructor. }
  assert (Hlast : ∀ j later, 1 < j →
            file_parts request_sample !! j = Some later →
            blobName (file_info None later) ≠ "report.csv.gz").
  { intros [|[|[|j]]] later Hj; try lia; simpl; discriminate. }
  exact (proj1 (blob_holds_last_upload (λ bytes, bytes) request_sample None ∅
                  1 _ H eq_refl Hlast)).
Defined.

(** X18: When the iterator throws, the call fails with the message of the
    [catch] block, and the blobs of the file parts read before that point
    stay in the container: nothing is rolled back, and no part after that
    point is uploaded. *)
Theorem failed_upload_keeps_earlier_blobs (gzip : list byte → list byte)
    (items : list FileItemInput) (rest : list (option FileItemInput))
    (forceCompression : option bool) (container : Container) :
  handleStreamingUpload gzip ((Some <$> items) ++ None :: rest)
                        forceCompression container
  = (Throw "Multipart parsing failed",
     snd (handleStreamingUpload gzip (Some <$> items) forceCompression
                                container)).
Proof.
  unfold handleStreamingUpload.
  by rewrite upload_loop_throws, upload_loop_readable.
Qed.

(** X19: The [x-compress] header, when present, overrides the MIME type for
    every file of the request: all files are compressed if its value is
    [true] in any mix of upper and lower case, and none is, whatever its
    type, for any other value. *)
Theorem header_overrides_mime (gzip : list byte → list byte)
    (request : list (option FileItemInput)) (header : string)
    (container : Container) :
  Forall is_Some request →
  ∃ files,
    fst (upload gzip request (Some header) container) = Normal files
    ∧ length files = length (file_parts request)
    ∧ Forall (λ info, compressed info = equals_ignoreCase header "true")
             files.
Proof.
  intros Hreadable. unfold upload.
  rewrite handleStreamingUpload_readable by done.
  eexists. split; [reflexivity|]. split; [by rewrite length_map|].
  apply Forall_forall. intros info Hin.
  apply list_elem_of_fmap in Hin as (item & -> & _).
  by destruct (file_info_naming (forceCompression_of (Some header)) item)
    as [_ ->].
Qed.

Lemma header_overrides_mime_witness :
  ∃ files,
    fst (upload (λ bytes, bytes) request_sample (Some "no") ∅)
    = Normal files
    ∧ length files = 2
    ∧ Forall (λ info, compressed info = false) files.
Proof.
  assert (H : Forall is_Some request_sample).
  { repeat (constructor; [by eexists|]). constructor. }
  destruct (header_overrides_mime (λ bytes, bytes) request_sample "no" ∅ H)
    as (files & H1 & H2 & H3).
  exists files. split; [exact H1|]. split; [exact H2|exact H3].
Defined.
End UploadServiceClaims.

(* ===================================================================== *)
(** ** Properties of the field-filter listing *)
(* ===================================================================== *)

Module FieldFilterAdviceFacts.
Import FieldFilterAdvice.

Lemma split_nonempty (delimiter : ascii) (s : string) :
  split delimiter s ≠ [].
Proof.
  induction s as [|c s IH]; simpl; [done|].
  destruct (Ascii.eqb c delimiter); [done|].
  by destruct (split delimiter s).
Qed.

(** Joining the pieces of a string gives the string back. *)
Lemma join_split (delimiter : ascii) (s : string) :
  join delimiter (split delimiter s) = s.
Proof.
  unfold join. induction s as [|c s IH]; simpl; [done|].
  pose proof (split_nonempty delimiter s) as Hne.
  destruct (Ascii.eqb_spec c delimiter) as [->|Hc].
  - destruct (split delimiter s) as [|p ps]; [done|].
    change (String.concat (String delimiter EmptyString)
              (EmptyString :: p :: ps))
      with (String delimiter
              (String.concat (String delimiter EmptyString) (p :: ps))).
    by rewrite IH.
  - destruct (split delimiter s) as [|p ps]; [done|].
    rewrite <- IH. by destruct ps.
Qed.

(** Adding the elements of a list to an insertion-ordered set. *)
Lemma foldl_add_spec (l set : list string) :
  NoDup set →
  NoDup (foldl (λ set x, if bool_decide (x ∈ set) then set
                         else (set ++ [x])%list) set l)
  ∧ ∀ x, x ∈ foldl (λ set x, if bool_decide (x ∈ set) then set
                             else (set ++ [x])%list) set l
         ↔ x ∈ set ∨ x ∈ l.
Proof.
  revert set. induction l as [|a l IH]; intros set Hset; simpl.
  - split; [done|]. intros x. rewrite elem_of_nil. tauto.
  - destruct (bool_decide_reflect (a ∈ set)) as [Ha|Ha].
    + destruct (IH set Hset) as [H1 H2]. split; [done|].
      intros x. rewrite H2, elem_of_cons. split; [tauto|].
      intros [?|[->|?]]; auto.
    + assert (Hset' : NoDup (set ++ [a])).
      { apply NoDup_app. split; [done|]. split; [|apply NoDup_singleton].
        intros x Hx ->%list_elem_of_singleton. done. }
      destruct (IH _ Hset') as [H1 H2]. split; [done|].
      intros x. rewrite H2, elem_of_app, list_elem_of_singleton, elem_of_cons.
      tauto.
Qed.

Lemma toSet_spec (l : list string) :
  NoDup (toSet l) ∧ ∀ x, x ∈ toSet l ↔ x ∈ l.
Proof.
  destruct (foldl_add_spec l [] (NoDup_nil_2)) as [H1 H2].
  split; [done|]. intros x. unfold toSet. rewrite H2, elem_of_nil. tauto.
Qed.

Section TrimFacts.
Variable isWhitespace : ascii → bool.

Lemma trimEnd_idempotent (s : string) :
  trimEnd isWhitespace (trimEnd isWhitespace s) = trimEnd isWhitespace s.
Proof.
  induction s as [|c s IH]; simpl; [done|].
  destruct (trimEnd isWhitespace s) as [|c' s'] eqn:Hs.
  - destruct (isWhitespace c) eqn:Hc; simpl; [done|]. by rewrite Hc.
  - cbn [trimEnd]. cbn [trimEnd] in IH. by rewrite IH.
Qed.

Lemma trimStart_cases (s : string) :
  trimStart isWhitespace s = EmptyString
  ∨ ∃ c rest, trimStart isWhitespace s = String c rest
              ∧ isWhitespace c = false.
Proof.
  induction s as [|c s IH]; simpl; [by left|].
  destruct (isWhitespace c) eqn:Hc; [done|]. right. by exists c, s.
Qed.

Lemma trim_idempotent (s : string) :
  trim isWhitespace (trim isWhitespace s) = trim isWhitespace s.
Proof.
  unfold trim.
  destruct (trimStart_cases s) as [->|(c & rest & -> & Hc)]; [done|].
  assert (Hhead : ∃ rest', trimEnd isWhitespace (String c rest)
                           = String c rest').
  { simpl. destruct (trimEnd isWhitespace rest); rewrite ?Hc; by eexists. }
  destruct Hhead as [rest' Hrest']. rewrite Hrest'.
  simpl trimStart. rewrite Hc.
  by rewrite <- Hrest', trimEnd_idempotent.
Qed.
End TrimFacts.

Lemma split_without_delimiter (delimiter : ascii) (p : string) :
  delimiter ∉ list_ascii_of_string p → split delimiter p = [p].
Proof.
  induction p as [|c p IH]; simpl; [done|]. intros Hnot.
  apply not_elem_of_cons in Hnot as [Hc Hp].
  destruct (Ascii.eqb_spec c delimiter) as [->|_]; [done|].
  by rewrite IH.
Qed.

Lemma split_app_delimiter (delimiter : ascii) (p rest : string) :
  delimiter ∉ list_ascii_of_string p →
  split delimiter (p +:+ String delimiter rest)
  = p :: split delimiter rest.
Proof.
  induction p as [|c p IH]; simpl.
  - by rewrite Ascii.eqb_refl.
  - intros Hnot. apply not_elem_of_cons in Hnot as [Hc Hp].
    destruct (Ascii.eqb_spec c delimiter) as [->|_]; [done|].
    by rewrite IH.
Qed.
End FieldFilterAdviceFacts.

Section FieldFilterAdviceClaims.
Import FieldFilterAdvice FieldFilterAdviceFacts.

(** X20: [split] never returns an empty list and loses nothing: joining its
    pieces with the delimiter gives the string back, and pieces that hold no
    delimiter are found again after joining them. *)
Theorem split_join_round_trip (delimiter : ascii) (s : string)
    (pieces : list string) :
  split delimiter s ≠ []
  ∧ join delimiter (split delimiter s) = s
  ∧ (pieces ≠ [] →
     Forall (λ p, delimiter ∉ list_ascii_of_string p) pieces →
     split delimiter (join delimiter pieces) = pieces).
Proof.
  split; [apply split_nonempty|]. split; [apply join_split|].
  intros Hne Hall. unfold join.
  induction Hall as [|p ps Hp Hps IH]; [done|].
  destruct ps as [|q ps].
  - simpl. by apply split_without_delimiter.
  - change (String.concat (String delimiter EmptyString) (p :: q :: ps))
      with (p +:+ String delimiter
              (String.concat (String delimiter EmptyString) (q :: ps))).
    rewrite split_app_delimiter by done. f_equal. by apply IH.
Qed.

Lemma split_join_round_trip_witness :
  split ","%char (join ","%char ["id"; EmptyString; "name"]) = ["id"; EmptyString; "name"].
Proof.
  apply (split_join_round_trip ","%char EmptyString ["id"; EmptyString; "name"]).
  - done.
  - repeat (constructor; [by apply (bool_decide_unpack _); vm_compute|]).
    constructor.
Defined.

(** X21: The requested fields are the trimmed pieces of the parameter, each
    once: the list is never empty, has no duplicates, holds exactly the
    trimmed pieces, and trimming a field again changes nothing. *)
Theorem fields_are_the_trimmed_pieces (isWhitespace : ascii → bool)
    (fieldsParam : string) :
  fields_of isWhitespace fieldsParam ≠ []
  ∧ NoDup (fields_of isWhitespace fieldsParam)
  ∧ (∀ f, f ∈ fields_of isWhitespace fieldsParam
          ↔ ∃ piece, piece ∈ split ","%char fieldsParam
                     ∧ f = trim isWhitespace piece)
  ∧ Forall (λ f, trim isWhitespace f = f)
           (fields_of isWhitespace fieldsParam).
Proof.
  unfold fields_of.
  destruct (toSet_spec (List.map (trim isWhitespace)
                          (split ","%char fieldsParam))) as [Hnodup Hin].
  assert (Hmem : ∀ f,
    f ∈ toSet (List.map (trim isWhitespace) (split ","%char fieldsParam))
    ↔ ∃ piece, piece ∈ split ","%char fieldsParam
               ∧ f = trim isWhitespace piece).
  { intros f. rewrite Hin.
    change (List.map (trim isWhitespace) (split ","%char fieldsParam))
      with (trim isWhitespace <$> split ","%char fieldsParam).
    rewrite list_elem_of_fmap. split; intros (piece & ? & ?); by exists piece. }
  split; [|split; [done|split; [done|]]].
  - pose proof (split_nonempty ","%char fieldsParam) as Hne.
    destruct (split ","%char fieldsParam) as [|piece pieces] eqn:Hs; [done|].
    intros Hnil.
    assert (Hp : trim isWhitespace piece ∈ @nil string).
    { rewrite <- Hnil. apply Hmem. exists piece. split; [|done].
      apply elem_of_cons. by left. }
    by apply elem_of_nil in Hp.
  - apply Forall_forall. intros f Hf.
    apply Hmem in Hf as (piece & _ & ->). apply trim_idempotent.
Qed.

(** X22: The test [fields.isEmpty()] never sends the body back: with a body and
    a [fields] parameter, [beforeBodyWrite] always answers with a
    [MappingJacksonValue] and sets the filter and the mix-in on the shared
    object mapper.  For an empty parameter the filter lets through only a
    property whose name is the empty string.  Without a body or without
    the parameter the object mapper is left as it was. *)
Theorem fields_guard_never_fires {Body : Type}
    (isWhitespace : ascii → bool) (javaClass : Body → string)
    (body : Body) (fieldsParam : string) (objectMapper : ObjectMapper) :
  beforeBodyWrite isWhitespace javaClass (Some body) (Some fieldsParam)
                  objectMapper
  = (written_MappingJacksonValue body (fields_of isWhitespace fieldsParam),
     {| dynamicFilter := Some (fields_of isWhitespace fieldsParam);
        mixIns := {[ javaClass body ]} ∪ mixIns objectMapper |})
  ∧ fields_of isWhitespace EmptyString = [EmptyString]
  ∧ beforeBodyWrite isWhitespace javaClass None (Some fieldsParam)
                    objectMapper
    = (written_null, objectMapper)
  ∧ beforeBodyWrite isWhitespace javaClass (Some body) None objectMapper
    = (written_body body, objectMapper).
Proof.
  split; [|by repeat split].
  unfold beforeBodyWrite.
  destruct (fields_of isWhitespace fieldsParam) as [|f fs] eqn:Hfields;
    [|done].
  unfold fields_of in Hfields.
  destruct (toSet_spec (List.map (trim isWhitespace)
                          (split ","%char fieldsParam))) as [_ Hin].
  pose proof (split_nonempty ","%char fieldsParam) as Hne.
  destruct (split ","%char fieldsParam) as [|piece pieces]; [done|].
  assert (Hp : trim isWhitespace piece ∈ @nil string).
  { rewrite <- Hfields. apply Hin. simpl. apply elem_of_cons. by left. }
  by apply elem_of_nil in Hp.
Qed.
End FieldFilterAdviceClaims.

Module PeekableInputStreamFacts.
Import PeekableInputStream.

(** What a call of [peek] does to the stream and gives to [block]. *)
Lemma peek_spec {T : Type} (peekLen more : nat)
    (block : list byte → T) (st : State) :
  ∃ slice st',
    peek peekLen more block st = (Normal (block slice), st')
    ∧ unread st' = unread st
    ∧ slice = take (length slice) (unread st)
    ∧ (length slice ≤ peekLen)%nat
    ∧ (unread st ≠ [] → (0 < peekLen)%nat → slice ≠ []).
Proof.
  unfold peek, read_into, mark. simpl.
  destruct (unread st) as [|b rest] eqn:Hunread.
  - simpl. exists [], {| unread := []; marked := Some ([], peekLen, 0) |}.
    repeat split; simpl; try done. lia.
  - set (n := (peekLen `min` S more) `min` length (b :: rest)).
    simpl reset. unfold reset. simpl.
    assert (Hle : (n <=? peekLen)%nat = true) by (apply Nat.leb_le; lia).
    rewrite Hle.
    destruct n as [|n'] eqn:Hn.
    + exists [], {| unread := b :: rest;
                   marked := Some (b :: rest, peekLen, 0) |}.
      repeat split; simpl; try done; try lia.
      intros _ Hpos. simpl in n. lia.
    + exists (take (S n') (b :: rest)),
             {| unread := b :: rest;
                marked := Some (b :: rest, peekLen, 0) |}.
      assert (Hlen : length (take (S n') (b :: rest)) = S n').
      { rewrite length_take. simpl in *. lia. }
      split; [done|]. split; [done|]. split; [by rewrite Hlen|].
      split; [rewrite Hlen; lia|]. intros _ _. done.
Qed.
End PeekableInputStreamFacts.

Section PeekableInputStreamClaims.
Import PeekableInputStream PeekableInputStreamFacts.

(** X14: [peek] does not consume the stream and does not fail: it hands [block]
    a beginning of the unread bytes, at most [peekLen] of them and at
    least one if there is one and [peekLen] is not zero, and afterwards
    the unread bytes are the same as before. *)
Theorem peek_does_not_consume {T : Type} (peekLen more : nat)
    (block : list byte → T) (st : State) :
  ∃ slice st',
    peek peekLen more block st = (Normal (block slice), st')
    ∧ unread st' = unread st
    ∧ slice = take (length slice) (unread st)
    ∧ (length slice ≤ peekLen)%nat
    ∧ (unread st ≠ [] → (0 < peekLen)%nat → slice ≠ []).
Proof. apply peek_spec. Qed.

Lemma peek_does_not_consume_witness :
  ∃ slice st',
    peek 2 5 (λ bytes, bytes)
         {| unread := ["a"%byte; "b"%byte; "c"%byte]; marked := None |}
    = (Normal slice, st')
    ∧ unread st' = ["a"%byte; "b"%byte; "c"%byte]
    ∧ slice ≠ [].
Proof.
  destruct (peek_does_not_consume 2 5 (λ bytes, bytes)
              {| unread := ["a"%byte; "b"%byte; "c"%byte]; marked := None |})
    as (slice & st' & H1 & H2 & _ & _ & H3).
  exists slice, st'. split; [exact H1|]. split; [exact H2|].
  apply H3; [discriminate|lia].
Defined.

(** X23: [MimeDetector.detect] always returns a MIME type and leaves the
    stream as it was: the type is what Tika detects on a beginning of the
    unread bytes, at most [peekLen] long, and the fallback when Tika has no
    answer; on a stream at its end Tika is asked about no bytes at all. *)
Theorem detect_answers_without_consuming (tika : list byte → option string)
    (fallback : string) (peekLen more : nat) (st : State) :
  ∃ slice st',
    detect tika fallback peekLen more st
    = (Normal (default fallback (tika slice)), st')
    ∧ unread st' = unread st
    ∧ slice = take (length slice) (unread st)
    ∧ (length slice ≤ peekLen)%nat
    ∧ (tika slice = None →
       fst (detect tika fallback peekLen more st) = Normal fallback)
    ∧ (unread st = [] → slice = []).
Proof.
  unfold detect.
  destruct (peek_spec peekLen more (λ bytes, default fallback (tika bytes))
              st) as (slice & st' & H1 & H2 & H3 & H4 & _).
  exists slice, st'. rewrite H1. repeat split; try done.
  - intros Hnone. simpl. by rewrite Hnone.
  - intros Hnil. rewrite H3, Hnil. by rewrite take_nil.
Qed.

Lemma detect_answers_without_consuming_witness :
  fst (detect (λ _, None) "application/octet-stream" 16 0
         {| unread := ["a"%byte]; marked := None |})
  = Normal "application/octet-stream".
Proof.
  destruct (detect_answers_without_consuming (λ _, None)
              "application/octet-stream" 16 0
              {| unread := ["a"%byte]; marked := None |})
    as (slice & st' & _ & _ & _ & _ & H & _).
  apply H. reflexivity.
Defined.
End PeekableInputStreamClaims.
